(** * LZSS compressor of gnark (std/compress/lzss/compress.go)

    A shallow embedding of [Compress], [longestMostRecentBackRef] and [emit],
    followed by the properties of the specification stated over it.

    Conventions of the embedding.
    - Go [int] values are [Z].  The only operation of the source that can leave
      the 64-bit range on realistic inputs is the shift [1 << (nb * 8)]; its
      wrap-around is written out in [shl1], and that of the [uint] sum of the
      widths in [minNontrivialBackRefCost].  Index arithmetic stays far inside
      the range for slices shorter than [2^62], and the sums of the costs the
      oracle returns are taken to stay inside it too.
    - A [[]byte] is a [list byte]; the nil slice is [[]].
    - A run of the Go code ends in one of three ways: it returns, it panics
      (a run-time panic or an explicit [panic(...)]), or it does not end.
      Loops whose termination is not structural take fuel; [OutOfFuel] marks
      a run that was cut, and a run is divergent when every fuel is cut. *)

From Stdlib Require Import String ZArith NArith List Lia Bool.
From Stdlib Require Import Strings.Byte.
Import ListNotations.
Local Open Scope Z_scope.

(** ** Go run-time model *)

Inductive panic : Type :=
| SliceBoundsOutOfRange
| IndexOutOfRange
| AssignmentToNilMap
| ExplicitPanic (msg : string).

Inductive outcome (A : Type) : Type :=
| Returns (a : A)
| Panics (p : panic)
| OutOfFuel.

Arguments Returns {A} a.
Arguments Panics {A} p.
Arguments OutOfFuel {A}.

Definition bind {A B : Type} (m : outcome A) (k : A -> outcome B) : outcome B :=
  match m with
  | Returns a => k a
  | Panics p => Panics p
  | OutOfFuel => OutOfFuel
  end.

Notation "x <- m ;; k" := (bind m (fun x => k))
  (at level 61, m at next level, right associativity).
Notation "' pat <- m ;; k" := (bind m (fun x => match x with pat => k end))
  (at level 61, pat pattern, m at next level, right associativity).

(** [len(s)] *)
Definition len {A : Type} (s : list A) : Z := Z.of_nat (List.length s).

(** [d[k]]: panics outside [0 <= k < len(d)]. *)
Definition index (d : list byte) (k : Z) : outcome byte :=
  if (0 <=? k) && (k <? len d) then
    match nth_error d (Z.to_nat k) with
    | Some b => Returns b
    | None => Panics IndexOutOfRange
    end
  else Panics IndexOutOfRange.

(** [d[lo:hi]]: panics unless [0 <= lo <= hi <= cap(d)]; the capacity of the
    input slice is taken to be its length. *)
Definition slice (d : list byte) (lo hi : Z) : outcome (list byte) :=
  if (0 <=? lo) && (lo <=? hi) && (hi <=? len d) then
    Returns (firstn (Z.to_nat (hi - lo)) (skipn (Z.to_nat lo) d))
  else Panics SliceBoundsOutOfRange.

(** [bytes.Equal] *)
Fixpoint bytesEqual (a b : list byte) : bool :=
  match a, b with
  | [], [] => true
  | x :: a', y :: b' => Byte.eqb x y && bytesEqual a' b'
  | _, _ => false
  end.

(** Two's complement reading of a 64-bit pattern, and the [uint] wrap. *)
Definition int64 (z : Z) : Z := (z + 2 ^ 63) mod 2 ^ 64 - 2 ^ 63.
Definition uint64 (z : Z) : Z := z mod 2 ^ 64.

(** [1 << count] at type [int], [count] a [uint]: a count of 64 or more
    shifts the bit out. *)
Definition shl1 (count : Z) : Z :=
  if count <? 64 then int64 (Z.shiftl 1 count) else 0.

(** [byte(n)]: the low eight bits of [n]. *)
Definition byteOf (n : Z) : byte :=
  match Byte.of_N (Z.to_N (n mod 256)) with
  | Some b => b
  | None => x00
  end.

(** A Go [map[int]struct{}]: [None] is the nil map, [Some ks] holds the keys
    [ks] (no duplicates).  Go leaves the order of [range] unspecified; the
    source only takes the length and the maximum of what it collects. *)
Definition intSet : Type := option (list Z).

Definition mapLen (m : intSet) : Z :=
  match m with
  | None => 0
  | Some ks => len ks
  end.

Definition mapKeys (m : intSet) : list Z :=
  match m with
  | None => []
  | Some ks => ks
  end.

(** [m[j] = struct{}{}]: a write to the nil map panics. *)
Definition mapInsert (j : Z) (m : intSet) : outcome intSet :=
  match m with
  | None => Panics AssignmentToNilMap
  | Some ks => Returns (Some (if existsb (Z.eqb j) ks then ks else ks ++ [j]))
  end.

(** [delete(m, j)]: a no-op on the nil map. *)
Definition mapDelete (j : Z) (m : intSet) : intSet :=
  match m with
  | None => None
  | Some ks => Some (filter (fun k => negb (k =? j)) ks)
  end.

(** ** Settings *)

Inductive ReferenceTarget : Type := Uncompressed | Compressed.
Inductive AddressingModeKind : Type := Relative | Absolute.

(** The widths read through [settings.BackRefSettings]. *)
Module BackRefSettings.
Record t : Type := mk {
  NbBytesAddress : N;
  NbBytesLength : N
}.
End BackRefSettings.

(** Modelled from the spec: the declaration of [Settings] is not among the
    source files. The fields are the ones [Compress] reads, the widths being
    [uint] as [emit] takes them. [Compress] reads the widths of a marker run
    near the start of the input as [settings.BackRefSettings.NbBytesAddress]
    and [settings.BackRefSettings.NbBytesLength], which the spec describes as
    widths of their own; when [BackRefSettings] is an embedded struct whose
    fields Go promotes, they are the fields [settings.NbBytesAddress] and
    [settings.NbBytesLength] themselves. The record keeps both pairs, so that
    either reading is an instance. *)
Record Settings : Type := mkSettings {
  Symbol : byte;
  NbBytesAddress : N;
  NbBytesLength : N;
  BackRefSettings : BackRefSettings.t;
  ReferenceTo : ReferenceTarget;
  AddressingMode : AddressingModeKind;
  Log : bool
}.

Definition ReferenceTarget_eqb (a b : ReferenceTarget) : bool :=
  match a, b with
  | Uncompressed, Uncompressed | Compressed, Compressed => true
  | _, _ => false
  end.

Definition AddressingModeKind_eqb (a b : AddressingModeKind) : bool :=
  match a, b with
  | Relative, Relative | Absolute, Absolute => true
  | _, _ => false
  end.

(** ** [emit]: little-endian field writer *)

(** The loop [for i := uint(0); i < nbBytes; i++ { bb.WriteByte(byte(n)); n >>= 8 }]. *)
Fixpoint emitLoop (k : nat) (bb : list byte) (n : Z) : list byte * Z :=
  match k with
  | O => (bb, n)
  | S k' => emitLoop k' (bb ++ [byteOf n]) (Z.shiftr n 8)
  end.

Definition emit (bb : list byte) (n : Z) (nbBytes : N) : outcome (list byte) :=
  let '(bb', n') := emitLoop (N.to_nat nbBytes) bb n in
  if n' =? 0 then Returns bb'
  else Panics (ExplicitPanic "n does not fit in nbBytes").

(** ** [longestMostRecentBackRef] *)

Section Matcher.

Variable d : list byte.
Variables i minBackRefAddr minViableBackRefLen : Z.

(** [for j := i - 1; j >= 0 && j >= minBackRefAddr; j--], collecting the
    starts whose first [minViableBackRefLen] bytes agree. *)
Fixpoint collectLoop (fuel : nat) (minViableBackRef : list byte) (j : Z)
         (remainingOptions : intSet) : outcome intSet :=
  match fuel with
  | O => OutOfFuel
  | S fuel' =>
    if (j >=? 0) && (j >=? minBackRefAddr) then
      if j + minViableBackRefLen >? len d then
        collectLoop fuel' minViableBackRef (j - 1) remainingOptions
      else
        s <- slice d j (j + minViableBackRefLen) ;;
        if bytesEqual s minViableBackRef then
          remainingOptions' <- mapInsert j remainingOptions ;;
          collectLoop fuel' minViableBackRef (j - 1) remainingOptions'
        else collectLoop fuel' minViableBackRef (j - 1) remainingOptions
    else Returns remainingOptions
  end.

(** [for j := range remainingOptions { if j+l > len(d) || d[j+l] != d[i+l]
    { toDelete = append(toDelete, j) } }] *)
Fixpoint markLoop (l : Z) (keys toDelete : list Z) : outcome (list Z) :=
  match keys with
  | [] => Returns toDelete
  | j :: keys' =>
    if j + l >? len d then markLoop l keys' (toDelete ++ [j])
    else
      a <- index d (j + l) ;;
      b <- index d (i + l) ;;
      if negb (Byte.eqb a b) then markLoop l keys' (toDelete ++ [j])
      else markLoop l keys' toDelete
  end.

(** [for ; len(toDelete) < len(remainingOptions); l++ { ... }] *)
Fixpoint pruneLoop (fuel : nat) (remainingOptions : intSet)
         (toDelete : list Z) (l : Z) : outcome (intSet * list Z * Z) :=
  match fuel with
  | O => OutOfFuel
  | S fuel' =>
    if len toDelete <? mapLen remainingOptions then
      let remainingOptions' :=
        fold_left (fun m j => mapDelete j m) toDelete remainingOptions in
      toDelete' <- markLoop l (mapKeys remainingOptions') [] ;;
      pruneLoop fuel' remainingOptions' toDelete' (l + 1)
    else Returns (remainingOptions, toDelete, l)
  end.

(** [mostRecent := toDelete[0]; for _, j := range toDelete { if j >
    mostRecent { mostRecent = j } }] *)
Definition mostRecentOf (toDelete : list Z) : outcome Z :=
  match toDelete with
  | [] => Panics IndexOutOfRange
  | j0 :: _ =>
    Returns (fold_left (fun m j => if j >? m then j else m) toDelete j0)
  end.

Definition longestMostRecentBackRef : outcome (Z * Z) :=
  minViableBackRef <- slice d i (i + minViableBackRefLen) ;;
  (* var remainingOptions map[int]struct{}: declared, never made *)
  remainingOptions <-
    collectLoop (S (Z.to_nat i)) minViableBackRef (i - 1) None ;;
  ' (remainingOptions', toDelete, l) <-
    pruneLoop (S (S (2 * List.length d))) remainingOptions []
              minViableBackRefLen ;;
  if mapLen remainingOptions' =? 0 then Returns (-1, -1)
  else
    mostRecent <- mostRecentOf toDelete ;;
    Returns (mostRecent, l).

End Matcher.

(** ** [Compress] *)

(** How one pass through the body of the main loop ends: at the bottom of the
    body, with a new position and output buffer, or at a [return]. *)
Inductive control : Type :=
| Continue (i : Z) (out : list byte)
| Return (c : list byte) (err : option string).

Section Compress.

(** [compress.ByteGasCost] followed by the conversion to [int]: the cost
    oracle is declared outside the source files and is a parameter here. *)
Variable ByteGasCost : byte -> Z.
Variable d : list byte.
Variable settings : Settings.

Definition minNontrivialBackRefCost : Z :=
  ByteGasCost (Symbol settings) + 8
  + int64 (Z.of_N (NbBytesAddress settings)
           + Z.of_N (NbBytesLength settings) - 2).

Definition backRefAddressRange : Z :=
  shl1 (uint64 (Z.of_N (NbBytesAddress settings) * 8)).

Definition backRefLengthRange : Z :=
  shl1 (uint64 (Z.of_N (NbBytesLength settings) * 8)).

Definition emitBackRef (out : list byte) (offset length : Z)
  : outcome (list byte) :=
  out1 <- emit out (offset - 1) (NbBytesAddress settings) ;;
  emit out1 (length - 1) (NbBytesLength settings).

(** [for j < len(d) && j < cap && d[j] == settings.Symbol { j++ }] *)
Fixpoint runLoop (fuel : nat) (j cap : Z) : outcome Z :=
  match fuel with
  | O => OutOfFuel
  | S fuel' =>
    if (j <? len d) && (j <? cap) then
      b <- index d j ;;
      if Byte.eqb b (Symbol settings) then runLoop fuel' (j + 1) cap
      else Returns j
    else Returns j
  end.

Definition getRunLength (i cap : Z) : outcome Z :=
  let cap := if cap =? -1 then len d else cap in
  j <- runLoop (S (List.length d)) (i + 1) cap ;;
  Returns (j - i).

(** [for k := i - 1; k >= 0; k--], the backward scan for a run of the
    marker; the result is [(longestRunLen, longestRunStartIndex,
    currentRunLength)] at the exit or at the [break]. *)
Fixpoint scanLoop (fuel : nat) (runLength k : Z)
         (longestRunLen longestRunStartIndex currentRunLength : Z)
  : outcome (Z * Z * Z) :=
  match fuel with
  | O => OutOfFuel
  | S fuel' =>
    if k >=? 0 then
      b <- index d k ;;
      let currentRunLength' :=
        if Byte.eqb b (Symbol settings) then currentRunLength + 1 else 0 in
      if currentRunLength' >? longestRunLen then
        if currentRunLength' =? runLength then
          Returns (currentRunLength', k, currentRunLength')
        else
          scanLoop fuel' runLength (k - 1) currentRunLength' k currentRunLength'
      else
        scanLoop fuel' runLength (k - 1)
                 longestRunLen longestRunStartIndex currentRunLength'
    else Returns (longestRunLen, longestRunStartIndex, currentRunLength)
  end.

(** [for runLength > 0 { ... }] followed by
    [return nil, errors.New("not yet implemented")]. *)
Fixpoint searchLoop (fuel : nat) (i runLength : Z) (out : list byte)
  : outcome control :=
  match fuel with
  | O => OutOfFuel
  | S fuel' =>
    if runLength >? 0 then
      ' (longestRunLen, longestRunStartIndex, currentRunLength) <-
        scanLoop (S (Z.to_nat i)) runLength (i - 1) 0 0 0 ;;
      if currentRunLength =? 0 then
        Returns (Return [] (Some "no backref found"%string))
      else
        out' <- emitBackRef out (i - longestRunStartIndex) longestRunLen ;;
        searchLoop fuel' i runLength out'
    else Returns (Return [] (Some "not yet implemented"%string))
  end.

(** The inner [for { ... }] that grows [minViableBackRefLength]. *)
Fixpoint viableLoop (fuel : nat) (i minViableBackRefLength noBackRefCost : Z)
         (midRle : bool) : outcome Z :=
  match fuel with
  | O => OutOfFuel
  | S fuel' =>
    if i + minViableBackRefLength >? len d then Returns (-1)
    else
      curr <- index d (i + minViableBackRefLength - 1) ;;
      if Byte.eqb curr (Symbol settings) then
        viableLoop fuel' i (minViableBackRefLength + 1) noBackRefCost true
      else
        let noBackRefCost1 :=
          if midRle then noBackRefCost + minViableBackRefLength
          else noBackRefCost in
        let noBackRefCost2 := noBackRefCost1 + ByteGasCost curr in
        if noBackRefCost2 >=? minNontrivialBackRefCost then
          Returns minViableBackRefLength
        else
          viableLoop fuel' i (minViableBackRefLength + 1) noBackRefCost2 false
  end.

(** The [else] branch of the main loop: [d[i]] is not the marker. *)
Definition literalOrBackRef (i : Z) (out : list byte) : outcome control :=
  b <- index d i ;;
  minViableBackRefLength <-
    viableLoop (S (List.length d)) i 2 (ByteGasCost b) false ;;
  ' (addr, length) <-
    longestMostRecentBackRef d i (i - backRefAddressRange - 1)
                             minViableBackRefLength ;;
  if negb (length =? -1) then
    out' <- emitBackRef out (i - addr - 1) (length - 1) ;;
    Returns (Continue (i + length) out')
  else
    b' <- index d i ;;
    Returns (Continue (i + 1) (out ++ [b'])).

(** The [if] branch of the main loop: [d[i]] is the marker. *)
Definition markerRun (fuel : nat) (i : Z) (out : list byte)
  : outcome control :=
  let maxJExpressible := i + 1 + backRefLengthRange in
  runLength <- getRunLength i maxJExpressible ;;
  if i =? 0 then
    out' <- emitBackRef out 1 runLength ;;
    Returns (Continue (i + runLength) out')
  else if i <=? backRefAddressRange then
    out1 <- emit out i
                 (BackRefSettings.NbBytesAddress (BackRefSettings settings)) ;;
    out2 <- emit out1 (runLength - 1)
                 (BackRefSettings.NbBytesLength (BackRefSettings settings)) ;;
    Returns (Continue (i + runLength) out2)
  else searchLoop fuel i runLength out.

(** The body of [for i < len(d) { ... }]. *)
Definition iteration (fuel : nat) (i : Z) (out : list byte)
  : outcome control :=
  b <- index d i ;;
  if Byte.eqb b (Symbol settings) then markerRun fuel i out
  else literalOrBackRef i out.

Fixpoint mainLoop (fuel : nat) (i : Z) (out : list byte)
  : outcome (list byte * option string) :=
  match fuel with
  | O => OutOfFuel
  | S fuel' =>
    if i <? len d then
      r <- iteration fuel' i out ;;
      match r with
      | Continue i' out' => mainLoop fuel' i' out'
      | Return c err => Returns (c, err)
      end
    else Returns (out, None)
  end.

(** [Compress(d, settings)]: the pair [(c, err)] it returns, [err = None]
    standing for the nil error. *)
Definition Compress (fuel : nat) : outcome (list byte * option string) :=
  if ReferenceTarget_eqb (ReferenceTo settings) Compressed then
    Returns ([], Some "compressed ref not implemented"%string)
  else if AddressingModeKind_eqb (AddressingMode settings) Absolute then
    Returns ([], Some "absolute addressing not implemented"%string)
  else if Log settings then
    Returns ([], Some "logging not implemented"%string)
  else mainLoop fuel 0 [].

End Compress.


(** ** The wire format and the decoder of the specification *)

(** The [k]-byte little-endian encoding of [n] (section 6 of the spec). *)
Fixpoint leBytes (k : nat) (n : Z) : list byte :=
  match k with
  | O => []
  | S k' => byteOf n :: leBytes k' (Z.shiftr n 8)
  end.

(** The value of a little-endian field. *)
Fixpoint leValue (bs : list byte) : Z :=
  match bs with
  | [] => 0
  | b :: bs' => Z.of_N (Byte.to_N b) + 256 * leValue bs'
  end.

(** Modelled from the spec: a backreference token as section 6 words it, one
    byte equal to [Symbol], then [NbBytesAddress] little-endian bytes of
    [offset - 1], then [NbBytesLength] little-endian bytes of [length - 1]. *)
Definition backRefToken (s : Settings) (offset length : Z) : list byte :=
  Symbol s :: leBytes (N.to_nat (NbBytesAddress s)) (offset - 1)
           ++ leBytes (N.to_nat (NbBytesLength s)) (length - 1).

Section Decoder.

(** The byte read at a source position before the start of the output:
    [None] makes such a read a failure, as section 4.5 of the spec says;
    [Some b] reads [b] there, the convention the first comment of [Compress]
    states for the marker ([d[i < 0] = Symbol]). *)
Variable before : option byte.
Variable s : Settings.

(** Modelled from the spec: the copy of section 4.5. [n] bytes are copied one
    at a time, each from [offset] bytes before the end of the output as it
    stands when that byte is written. [None]: a source position is
    negative. *)
Fixpoint copyLoop (n : nat) (offset : Z) (out : list byte)
  : option (list byte) :=
  match n with
  | O => Some out
  | S n' =>
    let src := len out - offset in
    if src <? 0 then
      match before with
      | Some b => copyLoop n' offset (out ++ [b])
      | None => None
      end
    else
      match nth_error out (Z.to_nat src) with
      | Some b => copyLoop n' offset (out ++ [b])
      | None => None
      end
  end.

(** Modelled from the spec: the decoder is not among the source files; this
    is the state machine of section 4.5. A byte other than [Symbol] is
    appended; [Symbol] is followed by the two little-endian fields, and
    [offset = rawOffset + 1], [length = rawLength + 1] bytes are copied.
    [Returns None] is the DecodingCorruption failure (truncated token or
    negative source position). Every step consumes a byte, so fuel
    [S (length c)] is never used up. *)
Fixpoint decodeLoop (fuel : nat) (c out : list byte)
  : outcome (option (list byte)) :=
  match fuel with
  | O => OutOfFuel
  | S fuel' =>
    match c with
    | [] => Returns (Some out)
    | b :: rest =>
      if Byte.eqb b (Symbol s) then
        let na := N.to_nat (NbBytesAddress s) in
        let nl := N.to_nat (NbBytesLength s) in
        if (List.length rest <? na + nl)%nat then Returns None
        else
          let rawOffset := leValue (firstn na rest) in
          let rawLength := leValue (firstn nl (skipn na rest)) in
          match copyLoop (Z.to_nat (rawLength + 1)) (rawOffset + 1) out with
          | Some out' => decodeLoop fuel' (skipn (na + nl) rest) out'
          | None => Returns None
          end
      else decodeLoop fuel' rest (out ++ [b])
    end
  end.

Definition decode (c : list byte) : outcome (option (list byte)) :=
  decodeLoop (S (List.length c)) c [].

(** Modelled from the spec: the re-walk of section 8 with the token grammar of
    the decoder. [true] when every marker met in token position is followed
    by its two complete fields and the walk ends exactly at the last byte. *)
Fixpoint walkLoop (fuel : nat) (c : list byte) : outcome bool :=
  match fuel with
  | O => OutOfFuel
  | S fuel' =>
    match c with
    | [] => Returns true
    | b :: rest =>
      if Byte.eqb b (Symbol s) then
        let n := (N.to_nat (NbBytesAddress s) + N.to_nat (NbBytesLength s))%nat in
        if (List.length rest <? n)%nat then Returns false
        else walkLoop fuel' (skipn n rest)
      else walkLoop fuel' rest
    end
  end.

Definition walk (c : list byte) : outcome bool :=
  walkLoop (S (List.length c)) c.

End Decoder.

(** The decoder of section 4.5, and the variant that reads the marker before
    the start of the output. *)
Definition decodeStrict (s : Settings) : list byte -> outcome (option (list byte)) :=
  decode None s.

Definition decodeLenient (s : Settings) : list byte -> outcome (option (list byte)) :=
  decode (Some (Symbol s)) s.

(** ** Concrete settings, oracles and inputs used below *)

(** One-byte address and length fields, supported modes. *)
Definition settings11 (sym : byte) : Settings :=
  mkSettings sym 1 1 (BackRefSettings.mk 1 1) Uncompressed Relative false.

(** The settings [Compress] does not reject. *)
Definition supported (s : Settings) : Prop :=
  ReferenceTo s = Uncompressed /\ AddressingMode s = Relative /\ Log s = false.

(** Two cost oracles: the calldata price of a byte (4 for zero, 16
    otherwise), and the oracle under which every byte is free. *)
Definition calldataCost (b : byte) : Z := if Byte.eqb b x00 then 4 else 16.
Definition freeCost (_ : byte) : Z := 0.

Definition bytesOfNats (l : list nat) : list byte :=
  map (fun n => byteOf (Z.of_nat n)) l.

(** 259 bytes: [1..130], the marker [0], [131..255], [1], the marker again at
    position 257, and a last byte. No window of the matcher holds a repeated
    candidate, so positions 0 to 256 are written out without a panic. *)
Definition farMarkerInput : list byte :=
  bytesOfNats (seq 1 130 ++ [0%nat] ++ seq 131 125 ++ [1%nat; 0%nat; 7%nat]).

(** ** The invariant of the backward scan *)

(** What holds of [(longestRunLen, longestRunStartIndex, currentRunLength)]
    in the backward scan from [i] for a run of length [rl], before position
    [k] is read. *)
Definition scanInv (d : list byte) (s : Settings) (i rl k a b c : Z) : Prop :=
  -1 <= k < i /\ 0 <= c <= a /\ a < rl
  /\ (0 < c -> k + 1 + c <= i
               /\ forall p, k + 1 <= p < k + 1 + c ->
                            index d p = Returns (Symbol s))
  /\ (c = 0 -> k + 1 = i
               \/ exists x, index d (k + 1) = Returns x /\ x <> Symbol s)
  /\ (0 < a -> 0 <= b /\ b + a <= i
               /\ forall p, b <= p < b + a -> index d p = Returns (Symbol s)).

(** What holds of them when the scan has ended. *)
Definition scanPost (d : list byte) (s : Settings) (i rl a b c : Z) : Prop :=
  0 <= c <= a /\ a <= rl
  /\ (0 < a -> 0 <= b /\ b + a <= i
               /\ forall p, b <= p < b + a -> index d p = Returns (Symbol s))
  /\ (a = rl -> c = rl)
  /\ (a < rl ->
      (c = 0 <-> i = 0 \/ exists x, index d 0 = Returns x /\ x <> Symbol s)).

(** * Properties *)

(** ** Auxiliary results *)

Lemma bytesEqual_eq (a b : list byte) : bytesEqual a b = true <-> a = b.
Proof.
  revert b; induction a as [|x a IH]; intros [|y b]; simpl; split; intro H;
    try reflexivity; try discriminate.
  - apply andb_true_iff in H as [Hx Hab].
    apply Byte.byte_dec_bl in Hx. apply IH in Hab. congruence.
  - injection H as -> ->. apply andb_true_iff; split.
    + now apply Byte.byte_dec_lb.
    + now apply IH.
Qed.

Lemma byte_eqb_refl (b : byte) : Byte.eqb b b = true.
Proof. now apply Byte.byte_dec_lb. Qed.

Lemma byte_eqb_neq (a b : byte) : a <> b -> Byte.eqb a b = false.
Proof.
  intro H. destruct (Byte.eqb a b) eqn:E; [|reflexivity].
  apply Byte.byte_dec_bl in E. contradiction.
Qed.

Lemma emitLoop_spec (k : nat) (bb : list byte) (n : Z) :
  emitLoop k bb n = (bb ++ leBytes k n, Z.shiftr n (8 * Z.of_nat k)).
Proof.
  revert bb n; induction k as [|k IH]; intros bb n.
  - simpl. now rewrite app_nil_r, Z.shiftr_0_r.
  - cbn [emitLoop leBytes]. rewrite IH, <- app_assoc.
    rewrite Z.shiftr_shiftr by lia.
    replace (8 + 8 * Z.of_nat k) with (8 * Z.of_nat (S k)) by lia.
    reflexivity.
Qed.

Lemma emit_fits (bb : list byte) (n : Z) (nb : N) :
  0 <= n < 2 ^ (8 * Z.of_N nb) ->
  emit bb n nb = Returns (bb ++ leBytes (N.to_nat nb) n).
Proof.
  intros [Hlo Hhi]. unfold emit. rewrite emitLoop_spec.
  rewrite N_nat_Z.
  rewrite Z.shiftr_div_pow2 by lia.
  rewrite Z.div_small by lia. reflexivity.
Qed.

Lemma emit_overflow (bb : list byte) (n : Z) (nb : N) :
  n < 0 \/ 2 ^ (8 * Z.of_N nb) <= n ->
  emit bb n nb = Panics (ExplicitPanic "n does not fit in nbBytes").
Proof.
  intros H. unfold emit. rewrite emitLoop_spec, N_nat_Z.
  rewrite Z.shiftr_div_pow2 by lia.
  assert (Hp : 0 < 2 ^ (8 * Z.of_N nb)) by (apply Z.pow_pos_nonneg; lia).
  destruct (Z.eqb_spec (n / 2 ^ (8 * Z.of_N nb)) 0) as [E|E]; [|reflexivity].
  exfalso. apply Z.div_small_iff in E; lia.
Qed.

(** *** The matcher *)

Lemma slice_in_range (d : list byte) (lo hi : Z) :
  0 <= lo <= hi -> hi <= len d ->
  slice d lo hi = Returns (firstn (Z.to_nat (hi - lo)) (skipn (Z.to_nat lo) d)).
Proof.
  intros [H1 H2] H3. unfold slice.
  destruct (Z.leb_spec 0 lo); [|lia].
  destruct (Z.leb_spec lo hi); [|lia].
  destruct (Z.leb_spec hi (len d)); [|lia].
  reflexivity.
Qed.

Lemma slice_reversed (d : list byte) (lo hi : Z) :
  hi < lo -> slice d lo hi = Panics SliceBoundsOutOfRange.
Proof.
  intros H. unfold slice.
  destruct (Z.leb_spec lo hi); [lia|].
  now rewrite andb_false_r.
Qed.

Lemma collectLoop_nil_returns (d : list byte) (floor m : Z) (fuel : nat)
      (mvb : list byte) (j : Z) (r : intSet) :
  collectLoop d floor m fuel mvb j None = Returns r -> r = None.
Proof.
  revert j; induction fuel as [|fuel IH]; intros j; simpl; [discriminate|].
  destruct ((j >=? 0) && (j >=? floor)).
  - destruct (j + m >? len d); [apply IH|].
    destruct (slice d j (j + m)) as [s| |]; simpl; try discriminate.
    destruct (bytesEqual s mvb); simpl; [discriminate|apply IH].
  - congruence.
Qed.

Lemma collectLoop_nil_spec (d : list byte) (floor m i : Z) (mvb : list byte) :
  0 <= m -> i + m <= len d ->
  forall (fuel : nat) (j : Z),
    (Z.to_nat (j + 1) < fuel)%nat -> j < i ->
    ((forall j', 0 <= j' <= j -> floor <= j' ->
                 slice d j' (j' + m) <> Returns mvb) ->
     collectLoop d floor m fuel mvb j None = Returns None)
    /\ ((exists j', 0 <= j' <= j /\ floor <= j' /\
                    slice d j' (j' + m) = Returns mvb) ->
        collectLoop d floor m fuel mvb j None = Panics AssignmentToNilMap).
Proof.
  intros Hm Hi. induction fuel as [|fuel IH]; intros j Hf Hj; [lia|].
  cbn [collectLoop].
  destruct (Z.geb_spec j 0) as [Hj0|Hj0]; cycle 1.
  { simpl. split; [reflexivity|]. intros (j' & ? & ? & _). lia. }
  destruct (Z.geb_spec j floor) as [Hjf|Hjf]; cycle 1.
  { simpl. split; [reflexivity|]. intros (j' & ? & ? & _). lia. }
  cbn [andb].
  destruct (Z.gtb_spec (j + m) (len d)) as [Hgt|_]; [lia|].
  rewrite (slice_in_range d j (j + m)) by lia. cbn [bind].
  pose proof (slice_in_range d j (j + m) ltac:(lia) ltac:(lia)) as Hs.
  destruct (bytesEqual _ mvb) eqn:E.
  - apply bytesEqual_eq in E. simpl. split; [|reflexivity].
    intros Hno. exfalso. apply (Hno j); [lia|lia|]. now rewrite Hs, E.
  - destruct (IH (j - 1)) as [IH1 IH2]; [lia|lia|].
    assert (Hne : slice d j (j + m) <> Returns mvb).
    { rewrite Hs. intros [= E']. rewrite E' in E.
      assert (bytesEqual mvb mvb = true) by now apply bytesEqual_eq.
      congruence. }
    split.
    + intros Hno. apply IH1. intros j' ? ?. apply Hno; lia.
    + intros (j' & Hj' & Hfl & Hs'). apply IH2. exists j'.
      assert (j' <> j) by (intros ->; contradiction).
      repeat split; try lia; assumption.
Qed.

Lemma longestMostRecentBackRef_returns (d : list byte) (i floor m a l : Z) :
  longestMostRecentBackRef d i floor m = Returns (a, l) -> a = -1 /\ l = -1.
Proof.
  unfold longestMostRecentBackRef.
  destruct (slice d i (i + m)) as [mvb| |]; cbn [bind]; try discriminate.
  destruct (collectLoop d floor m (S (Z.to_nat i)) mvb (i - 1) None)
    as [r| |] eqn:E; cbn [bind]; try discriminate.
  apply collectLoop_nil_returns in E. subst r.
  cbn. intros [= <- <-]. auto.
Qed.

Lemma longestMostRecentBackRef_spec (d : list byte) (i floor m : Z) :
  0 <= i -> 0 <= m -> i + m <= len d ->
  ((forall j, 0 <= j -> floor <= j -> j < i ->
              slice d j (j + m) <> slice d i (i + m)) ->
   longestMostRecentBackRef d i floor m = Returns (-1, -1))
  /\ ((exists j, 0 <= j /\ floor <= j /\ j < i /\
                 slice d j (j + m) = slice d i (i + m)) ->
      longestMostRecentBackRef d i floor m = Panics AssignmentToNilMap).
Proof.
  intros Hi Hm Hlen. unfold longestMostRecentBackRef.
  pose proof (slice_in_range d i (i + m) ltac:(lia) ltac:(lia)) as Hs.
  rewrite Hs. cbn [bind].
  set (mvb := firstn _ _) in *.
  destruct (collectLoop_nil_spec d floor m i mvb Hm Hlen
              (S (Z.to_nat i)) (i - 1)) as [H1 H2]; [lia|lia|].
  split.
  - intros Hno. rewrite H1; [reflexivity|].
    intros j' ? ?. apply Hno; lia.
  - intros (j & ? & ? & ? & E). rewrite H2; [reflexivity|].
    exists j. repeat split; try lia. exact E.
Qed.

(** *** The main loop *)

Lemma index_Returns (d : list byte) (k : Z) (b : byte) :
  index d k = Returns b -> 0 <= k < len d.
Proof.
  unfold index.
  destruct (Z.leb_spec 0 k); [|discriminate].
  destruct (Z.ltb_spec k (len d)); [|discriminate].
  intros _. lia.
Qed.

Lemma index_in_range (d : list byte) (k : Z) :
  0 <= k < len d -> exists b, index d k = Returns b.
Proof.
  intros [H1 H2]. unfold index, len in *.
  destruct (Z.leb_spec 0 k); [|lia].
  destruct (Z.ltb_spec k (Z.of_nat (List.length d))); [|lia].
  cbn [andb].
  destruct (nth_error d (Z.to_nat k)) as [b|] eqn:E; [now exists b|].
  apply nth_error_None in E. lia.
Qed.

Section MainLoopFacts.

Variable ByteGasCost : byte -> Z.
Variable d : list byte.
Variable s : Settings.

Lemma viableLoop_returns (fuel : nat) (i mv c r : Z) (midRle : bool) :
  viableLoop ByteGasCost d s fuel i mv c midRle = Returns r ->
  r = -1 \/
  (mv <= r /\ exists b, index d (i + r - 1) = Returns b
                        /\ Byte.eqb b (Symbol s) = false).
Proof.
  revert mv c midRle; induction fuel as [|fuel IH]; intros mv c midRle;
    cbn [viableLoop]; [discriminate|].
  destruct (i + mv >? len d); [intros [= <-]; now left|].
  destruct (index d (i + mv - 1)) as [curr| |] eqn:E; cbn [bind];
    try discriminate.
  destruct (Byte.eqb curr (Symbol s)) eqn:Ec.
  - intros H. apply IH in H as [H|(H1 & H2)]; [now left|right].
    split; [lia|exact H2].
  - destruct (_ >=? _).
    + intros [= <-]. right. split; [lia|]. now exists curr.
    + intros H. apply IH in H as [H|(H1 & H2)]; [now left|right].
      split; [lia|exact H2].
Qed.

Lemma runLoop_returns (fuel : nat) (j cap j' : Z) :
  runLoop d s fuel j cap = Returns j' ->
  j <= j' /\ forall k, j <= k < j' -> index d k = Returns (Symbol s).
Proof.
  revert j; induction fuel as [|fuel IH]; intros j; cbn [runLoop];
    [discriminate|].
  destruct ((j <? len d) && (j <? cap)).
  - destruct (index d j) as [b| |] eqn:E; cbn [bind]; try discriminate.
    destruct (Byte.eqb b (Symbol s)) eqn:Eb.
    + intros H. apply IH in H as [H1 H2]. split; [lia|].
      intros k Hk. destruct (Z.eq_dec k j) as [->|Hne].
      * apply Byte.byte_dec_bl in Eb. now subst b.
      * apply H2. lia.
    + intros [= <-]. split; [lia|]. intros k Hk. lia.
  - intros [= <-]. split; [lia|]. intros k Hk. lia.
Qed.

Lemma getRunLength_returns (i cap rl : Z) :
  getRunLength d s i cap = Returns rl ->
  1 <= rl /\ forall k, i + 1 <= k < i + rl -> index d k = Returns (Symbol s).
Proof.
  unfold getRunLength.
  destruct (runLoop d s _ (i + 1) _) as [j| |] eqn:E; cbn [bind];
    try discriminate.
  intros [= <-]. apply runLoop_returns in E as [H1 H2].
  split; [lia|]. intros k Hk. apply H2. lia.
Qed.

Lemma searchLoop_returns (fuel : nat) (i rl : Z) (out : list byte) (r : control) :
  searchLoop d s fuel i rl out = Returns r ->
  exists msg, r = Return [] (Some msg).
Proof.
  revert out; induction fuel as [|fuel IH]; intros out; cbn [searchLoop];
    [discriminate|].
  destruct (rl >? 0); [|intros [= <-]; eauto].
  destruct (scanLoop d s _ rl (i - 1) 0 0 0) as [[[a b] c]| |];
    cbn [bind]; try discriminate.
  destruct (c =? 0); [intros [= <-]; eauto|].
  destruct (emitBackRef s out (i - b) a) as [out'| |]; cbn [bind];
    try discriminate.
  apply IH.
Qed.

(** The branch for a byte other than the marker never writes a
    backreference: when it completes, it has written [d[i]] and moved on by
    one, and a later byte of the input is not the marker either. *)
Lemma literalOrBackRef_returns (i : Z) (out : list byte) (r : control) :
  literalOrBackRef ByteGasCost d s i out = Returns r ->
  exists b, index d i = Returns b
            /\ r = Continue (i + 1) (out ++ [b])
            /\ exists p b', i + 1 <= p /\ index d p = Returns b'
                            /\ Byte.eqb b' (Symbol s) = false.
Proof.
  unfold literalOrBackRef.
  destruct (index d i) as [b| |] eqn:Eb; cbn [bind]; try discriminate.
  destruct (viableLoop ByteGasCost d s _ i 2 _ false) as [mv| |] eqn:Ev;
    cbn [bind]; try discriminate.
  destruct (longestMostRecentBackRef d i _ mv) as [[a l]| |] eqn:Em;
    cbn [bind]; try discriminate.
  pose proof (longestMostRecentBackRef_returns _ _ _ _ _ _ Em) as [-> ->].
  cbn. intros [= <-]. exists b. split; [reflexivity|]. split; [reflexivity|].
  apply viableLoop_returns in Ev as [->|(Hmv & b' & Hb' & Hne)].
  - unfold longestMostRecentBackRef in Em.
    rewrite slice_reversed in Em by lia. discriminate.
  - exists (i + mv - 1), b'. split; [lia|]. now split.
Qed.

Lemma mainLoop_no_success (fuel : nat) :
  forall (i : Z) (out c : list byte),
    0 <= i ->
    (exists p b, i <= p /\ index d p = Returns b
                 /\ Byte.eqb b (Symbol s) = false) ->
    mainLoop ByteGasCost d s fuel i out <> Returns (c, None).
Proof.
  induction fuel as [|fuel IH]; intros i out c Hi (p & b & Hp & Hb & Hne);
    cbn [mainLoop]; [discriminate|].
  destruct (Z.ltb_spec i (len d)) as [Hlt|Hge]; cycle 1.
  { apply index_Returns in Hb. lia. }
  unfold iteration.
  destruct (index d i) as [b0| |] eqn:E0; cbn [bind]; try discriminate.
  destruct (Byte.eqb b0 (Symbol s)) eqn:Eb0.
  - (* a run of the marker *)
    apply Byte.byte_dec_bl in Eb0. subst b0.
    unfold markerRun.
    destruct (getRunLength d s i _) as [rl| |] eqn:Erl; cbn [bind];
      try discriminate.
    apply getRunLength_returns in Erl as [Hrl Hrun].
    assert (Hp' : i + rl <= p).
    { destruct (Z.le_gt_cases (i + rl) p) as [|Hin]; [assumption|exfalso].
      assert (Hs : index d p = Returns (Symbol s)).
      { destruct (Z.eq_dec p i) as [->|]; [assumption|apply Hrun; lia]. }
      rewrite Hs in Hb. injection Hb as <-.
      rewrite byte_eqb_refl in Hne. discriminate. }
    assert (Hnext : forall out',
               mainLoop ByteGasCost d s fuel (i + rl) out' <> Returns (c, None)).
    { intros out'. apply IH; [lia|]. exists p, b. auto. }
    destruct (i =? 0).
    + destruct (emitBackRef s out 1 rl) as [out'| |]; cbn [bind];
        try discriminate. apply Hnext.
    + destruct (i <=? backRefAddressRange s).
      * destruct (emit out i _) as [out1| |]; cbn [bind]; try discriminate.
        destruct (emit out1 (rl - 1) _) as [out2| |]; cbn [bind];
          try discriminate. apply Hnext.
      * destruct (searchLoop d s fuel i rl out) as [r| |] eqn:Es;
          cbn [bind]; try discriminate.
        apply searchLoop_returns in Es as [msg ->]. discriminate.
  - (* a byte other than the marker *)
    destruct (literalOrBackRef ByteGasCost d s i out) as [r| |] eqn:El;
      cbn [bind]; try discriminate.
    apply literalOrBackRef_returns in El
      as (b1 & _ & -> & p' & b' & Hp' & Hb' & Hne').
    apply IH; [lia|]. exists p', b'. auto.
Qed.

End MainLoopFacts.

Lemma Compress_supported (cost : byte -> Z) (d : list byte) (s : Settings)
      (fuel : nat) :
  supported s -> Compress cost d s fuel = mainLoop cost d s fuel 0 [].
Proof.
  intros (H1 & H2 & H3). unfold Compress. now rewrite H1, H2, H3.
Qed.

Lemma index_In (d : list byte) (k : Z) (b : byte) :
  index d k = Returns b -> In b d.
Proof.
  unfold index. destruct (_ && _); [|discriminate].
  destruct (nth_error d (Z.to_nat k)) eqn:E; [|discriminate].
  intros [= <-]. eapply nth_error_In; eassumption.
Qed.

Lemma In_index (d : list byte) (b : byte) :
  In b d -> exists k, index d k = Returns b.
Proof.
  intros H. apply In_nth_error in H as [n Hn].
  exists (Z.of_nat n). unfold index, len.
  assert (n < List.length d)%nat by (apply nth_error_Some; congruence).
  destruct (Z.leb_spec 0 (Z.of_nat n)); [|lia].
  destruct (Z.ltb_spec (Z.of_nat n) (Z.of_nat (List.length d))); [|lia].
  cbn [andb]. now rewrite Nat2Z.id, Hn.
Qed.

(** [Compress] returns an output only for an input made of marker bytes
    alone. *)
Lemma Compress_success_only_markers (cost : byte -> Z) (d : list byte)
      (s : Settings) (fuel : nat) (c : list byte) :
  Compress cost d s fuel = Returns (c, None) ->
  Forall (fun b => b = Symbol s) d.
Proof.
  intros H. apply Forall_forall. intros b Hb.
  destruct (Byte.eqb b (Symbol s)) eqn:E; [now apply Byte.byte_dec_bl|].
  exfalso. apply In_index in Hb as [k Hk].
  unfold Compress in H.
  destruct (ReferenceTarget_eqb _ _); [discriminate|].
  destruct (AddressingModeKind_eqb _ _); [discriminate|].
  destruct (Log s); [discriminate|].
  revert H. apply mainLoop_no_success; [lia|].
  exists k, b. pose proof (index_Returns _ _ _ Hk). repeat split; auto; lia.
Qed.

Section FreeLiterals.

Variable cost : byte -> Z.
Variable d : list byte.
Variable s : Settings.
Hypothesis no_marker : Forall (fun b => b <> Symbol s) d.
Hypothesis free : forall b, b <> Symbol s -> cost b = 0.
Hypothesis backref_costs : 0 < minNontrivialBackRefCost cost s.

Lemma viableLoop_free (fuel : nat) :
  forall i mv, 0 <= i -> 1 <= mv ->
    (Z.to_nat (len d - (i + mv) + 1) < fuel)%nat ->
    viableLoop cost d s fuel i mv 0 false = Returns (-1).
Proof.
  induction fuel as [|fuel IH]; intros i mv Hi Hmv Hf; [lia|].
  cbn [viableLoop].
  destruct (Z.gtb_spec (i + mv) (len d)) as [|Hle]; [reflexivity|].
  destruct (index_in_range d (i + mv - 1)) as [curr Hc]; [lia|].
  rewrite Hc. cbn [bind].
  assert (Hne : curr <> Symbol s).
  { apply index_In in Hc. rewrite Forall_forall in no_marker. auto. }
  rewrite (byte_eqb_neq _ _ Hne), (free _ Hne).
  destruct (Z.geb_spec (0 + 0) (minNontrivialBackRefCost cost s)); [lia|].
  apply IH; lia.
Qed.

Lemma Compress_free_literals_panics (fuel : nat) :
  d <> [] -> supported s ->
  Compress cost d s (S fuel) = Panics SliceBoundsOutOfRange.
Proof.
  intros Hd Hs. rewrite Compress_supported by assumption.
  cbn [mainLoop].
  assert (Hlen : 0 < len d).
  { unfold len. destruct d; [contradiction|simpl; lia]. }
  destruct (Z.ltb_spec 0 (len d)); [|lia].
  unfold iteration.
  destruct (index_in_range d 0) as [b Hb]; [lia|]. rewrite Hb. cbn [bind].
  assert (Hne : b <> Symbol s).
  { apply index_In in Hb. rewrite Forall_forall in no_marker. auto. }
  rewrite (byte_eqb_neq _ _ Hne).
  unfold literalOrBackRef. rewrite Hb. cbn [bind].
  rewrite (free _ Hne), viableLoop_free; [|lia|lia|unfold len in *; lia].
  cbn [bind]. unfold longestMostRecentBackRef.
  rewrite slice_reversed by lia. reflexivity.
Qed.

End FreeLiterals.

(** *** A run of markers at the start of the input *)

Lemma emitBackRef_bytes (s : Settings) (out : list byte) (offset length : Z) :
  emitBackRef s out offset length
  = Returns (out ++ leBytes (N.to_nat (NbBytesAddress s)) (offset - 1)
                 ++ leBytes (N.to_nat (NbBytesLength s)) (length - 1))
  \/ emitBackRef s out offset length
     = Panics (ExplicitPanic "n does not fit in nbBytes").
Proof.
  unfold emitBackRef.
  destruct (Z_lt_le_dec (offset - 1) 0) as [Ha|Ha].
  { right. rewrite emit_overflow by lia. reflexivity. }
  destruct (Z_lt_le_dec (offset - 1) (2 ^ (8 * Z.of_N (NbBytesAddress s))))
    as [Ha'|Ha']; cycle 1.
  { right. rewrite emit_overflow by lia. reflexivity. }
  rewrite emit_fits by lia. cbn [bind].
  destruct (Z_lt_le_dec (length - 1) 0) as [Hl|Hl].
  { right. rewrite emit_overflow by lia. reflexivity. }
  destruct (Z_lt_le_dec (length - 1) (2 ^ (8 * Z.of_N (NbBytesLength s))))
    as [Hl'|Hl']; cycle 1.
  { right. rewrite emit_overflow by lia. reflexivity. }
  left. rewrite emit_fits by lia. now rewrite <- app_assoc.
Qed.

Lemma emitBackRef_fits (s : Settings) (out : list byte) (offset length : Z) :
  0 <= offset - 1 < 2 ^ (8 * Z.of_N (NbBytesAddress s)) ->
  0 <= length - 1 < 2 ^ (8 * Z.of_N (NbBytesLength s)) ->
  emitBackRef s out offset length
  = Returns (out ++ leBytes (N.to_nat (NbBytesAddress s)) (offset - 1)
                 ++ leBytes (N.to_nat (NbBytesLength s)) (length - 1)).
Proof.
  intros Ha Hl. unfold emitBackRef.
  rewrite emit_fits by lia. cbn [bind].
  rewrite emit_fits by lia. now rewrite <- app_assoc.
Qed.

Lemma shl1_width (n : N) :
  (n <= 8)%N ->
  shl1 (uint64 (Z.of_N n * 8)) = 2 ^ (8 * Z.of_N n)
  \/ shl1 (uint64 (Z.of_N n * 8)) = 0.
Proof.
  intros Hw.
  assert (H : (n = 0 \/ n = 1 \/ n = 2 \/ n = 3 \/ n = 4 \/ n = 5
               \/ n = 6 \/ n = 7 \/ n = 8)%N) by lia.
  destruct H as [E|[E|[E|[E|[E|[E|[E|[E|E]]]]]]]]; subst n;
    first [left; vm_compute; reflexivity | right; vm_compute; reflexivity].
Qed.

Lemma backRefLengthRange_bound (s : Settings) (k : Z) :
  (NbBytesLength s <= 8)%N -> k <= backRefLengthRange s ->
  k - 1 < 2 ^ (8 * Z.of_N (NbBytesLength s)).
Proof.
  intros Hw. unfold backRefLengthRange.
  assert (0 < 2 ^ (8 * Z.of_N (NbBytesLength s)))
    by (apply Z.pow_pos_nonneg; lia).
  destruct (shl1_width _ Hw) as [-> | ->]; lia.
Qed.

Lemma index_repeat (b : byte) (k : nat) (j : Z) :
  0 <= j < Z.of_nat k -> index (repeat b k) j = Returns b.
Proof.
  intros Hj. unfold index, len. rewrite repeat_length.
  destruct (Z.leb_spec 0 j); [|lia].
  destruct (Z.ltb_spec j (Z.of_nat k)); [|lia].
  cbn [andb]. rewrite nth_error_repeat by lia. reflexivity.
Qed.

Lemma runLoop_repeat (s : Settings) (k : nat) (cap : Z) (fuel : nat) :
  Z.of_nat k <= cap ->
  forall j, 0 <= j <= Z.of_nat k -> (Z.to_nat (Z.of_nat k - j) < fuel)%nat ->
    runLoop (repeat (Symbol s) k) s fuel j cap = Returns (Z.of_nat k).
Proof.
  intros Hcap. induction fuel as [|fuel IH]; intros j Hj Hf; [lia|].
  cbn [runLoop]. unfold len. rewrite repeat_length.
  destruct (Z.ltb_spec j (Z.of_nat k)) as [Hlt|Hge]; cycle 1.
  { cbn [andb]. f_equal. lia. }
  destruct (Z.ltb_spec j cap); [|lia]. cbn [andb].
  rewrite index_repeat by lia. cbn [bind].
  rewrite byte_eqb_refl. apply IH; lia.
Qed.

Lemma Compress_marker_run (cost : byte -> Z) (s : Settings) (k fuel : nat) :
  supported s -> (NbBytesLength s <= 8)%N ->
  (1 <= k)%nat -> Z.of_nat k <= backRefLengthRange s ->
  Compress cost (repeat (Symbol s) k) s (S (S fuel))
  = Returns (leBytes (N.to_nat (NbBytesAddress s)) 0
             ++ leBytes (N.to_nat (NbBytesLength s)) (Z.of_nat k - 1), None).
Proof.
  intros Hs Hw Hk Hr. rewrite Compress_supported by assumption.
  cbn [mainLoop]. unfold len at 1. rewrite repeat_length.
  destruct (Z.ltb_spec 0 (Z.of_nat k)); [|lia].
  unfold iteration. rewrite index_repeat by lia. cbn [bind].
  rewrite byte_eqb_refl. unfold markerRun, getRunLength.
  destruct (Z.eqb_spec (0 + 1 + backRefLengthRange s) (-1)); [lia|].
  rewrite runLoop_repeat; [|lia|lia|rewrite repeat_length; lia].
  cbn [bind]. change (0 =? 0) with true. cbv iota.
  rewrite emitBackRef_fits; cycle 1.
  { split; [lia|]. apply Z.pow_pos_nonneg; lia. }
  { rewrite Z.sub_0_r. split; [lia|].
    now apply backRefLengthRange_bound. }
  cbn [bind app]. rewrite Z.sub_0_r, Z.add_0_l.
  cbn [mainLoop]. unfold len. rewrite repeat_length.
  rewrite Z.ltb_irrefl. reflexivity.
Qed.

Lemma searchLoop_error (d : list byte) (s : Settings) (fuel : nat)
      (i rl : Z) (out : list byte) (r : control) :
  (rl >? 0) = true ->
  searchLoop d s fuel i rl out = Returns r ->
  r = Return [] (Some "no backref found"%string).
Proof.
  intros Hrl. revert out; induction fuel as [|fuel IH]; intros out;
    cbn [searchLoop]; [discriminate|].
  rewrite Hrl.
  destruct (scanLoop d s _ rl (i - 1) 0 0 0) as [[[a b] c]| |];
    cbn [bind]; try discriminate.
  destruct (c =? 0); [now intros [= <-]|].
  destruct (emitBackRef s out (i - b) a) as [out'| |]; cbn [bind];
    try discriminate.
  apply IH.
Qed.

(** *** The search for an earlier run of markers *)

Section Divergence.

Variable cost : byte -> Z.
Variable d : list byte.
Variable s : Settings.

Lemma iteration_without_search (i : Z) (out : list byte)
      (r : outcome control) :
  iteration cost d s 0 i out = r -> r <> OutOfFuel ->
  forall fuel, iteration cost d s fuel i out = r.
Proof.
  unfold iteration, markerRun. intros H Hne fuel. subst r.
  destruct (index d i) as [b| |]; cbn [bind] in *; try reflexivity.
  destruct (Byte.eqb b (Symbol s)); [|reflexivity].
  destruct (getRunLength d s i _) as [rl| |]; cbn [bind] in *;
    try reflexivity.
  destruct (i =? 0); [reflexivity|].
  destruct (i <=? backRefAddressRange s); [reflexivity|].
  now contradiction Hne.
Qed.

Lemma searchLoop_stuck (i rl lrl lrsi crl : Z) :
  (rl >? 0) = true ->
  scanLoop d s (S (Z.to_nat i)) rl (i - 1) 0 0 0 = Returns (lrl, lrsi, crl) ->
  (crl =? 0) = false ->
  0 <= i - lrsi - 1 < 2 ^ (8 * Z.of_N (NbBytesAddress s)) ->
  0 <= lrl - 1 < 2 ^ (8 * Z.of_N (NbBytesLength s)) ->
  forall fuel out, searchLoop d s fuel i rl out = OutOfFuel.
Proof.
  intros Hrl Hscan Hcrl Ha Hl. induction fuel as [|fuel IH]; intros out;
    [reflexivity|].
  cbn [searchLoop]. rewrite Hrl, Hscan. cbn [bind]. rewrite Hcrl.
  rewrite emitBackRef_fits by assumption. cbn [bind]. apply IH.
Qed.

End Divergence.

(** *** Fuel: the bounded loops never run out, and a cut run does not end *)

Lemma index_fuel (d : list byte) (k : Z) : index d k <> OutOfFuel.
Proof.
  unfold index. destruct (_ && _); [|discriminate].
  destruct (nth_error _ _); discriminate.
Qed.

Lemma slice_fuel (d : list byte) (lo hi : Z) : slice d lo hi <> OutOfFuel.
Proof. unfold slice. destruct (_ && _); discriminate. Qed.

Lemma emit_fuel (bb : list byte) (n : Z) (nb : N) : emit bb n nb <> OutOfFuel.
Proof.
  unfold emit. destruct (emitLoop _ _ _). destruct (_ =? 0); discriminate.
Qed.

Lemma emitBackRef_fuel (s : Settings) (out : list byte) (offset length : Z) :
  emitBackRef s out offset length <> OutOfFuel.
Proof.
  unfold emitBackRef. pose proof (emit_fuel out (offset - 1) (NbBytesAddress s)).
  destruct (emit out _ _); cbn [bind]; try discriminate; [|contradiction].
  apply emit_fuel.
Qed.

Section Fuel.

Variable cost : byte -> Z.
Variable d : list byte.
Variable s : Settings.

Lemma runLoop_fuel (fuel : nat) :
  forall j cap, 0 <= j -> (Z.to_nat (len d - j) < fuel)%nat ->
    runLoop d s fuel j cap <> OutOfFuel.
Proof.
  induction fuel as [|fuel IH]; intros j cap Hj Hf; [lia|].
  cbn [runLoop].
  destruct (Z.ltb_spec j (len d)) as [Hlt|]; [|discriminate].
  destruct (j <? cap); [|discriminate]. cbn [andb].
  destruct (index_in_range d j) as [b ->]; [lia|]. cbn [bind].
  destruct (Byte.eqb b (Symbol s)); [|discriminate].
  apply IH; lia.
Qed.

Lemma getRunLength_fuel (i cap : Z) :
  0 <= i -> getRunLength d s i cap <> OutOfFuel.
Proof.
  intros Hi. unfold getRunLength.
  destruct (runLoop d s _ (i + 1) _) eqn:E; cbn [bind]; try discriminate.
  exfalso. revert E. apply runLoop_fuel; [lia|]. unfold len. lia.
Qed.

Lemma scanLoop_fuel (fuel : nat) :
  forall rl k a b c, k < len d -> (Z.to_nat (k + 1) < fuel)%nat ->
    scanLoop d s fuel rl k a b c <> OutOfFuel.
Proof.
  induction fuel as [|fuel IH]; intros rl k a b c Hk Hf; [lia|].
  cbn [scanLoop].
  destruct (Z.geb_spec k 0) as [Hk0|]; [|discriminate].
  destruct (index_in_range d k) as [x ->]; [lia|]. cbn [bind].
  destruct (_ >? a).
  - destruct (_ =? rl); [discriminate|]. apply IH; lia.
  - apply IH; lia.
Qed.

Lemma viableLoop_fuel (fuel : nat) :
  forall i mv c midRle, 0 <= i -> 1 <= mv ->
    (Z.to_nat (len d - (i + mv) + 1) < fuel)%nat ->
    viableLoop cost d s fuel i mv c midRle <> OutOfFuel.
Proof.
  induction fuel as [|fuel IH]; intros i mv c midRle Hi Hmv Hf; [lia|].
  cbn [viableLoop].
  destruct (Z.gtb_spec (i + mv) (len d)) as [|Hle]; [discriminate|].
  destruct (index_in_range d (i + mv - 1)) as [x ->]; [lia|]. cbn [bind].
  destruct (Byte.eqb x (Symbol s)).
  - apply IH; lia.
  - destruct (_ >=? _); [discriminate|]. apply IH; lia.
Qed.

Lemma collectLoop_fuel (floor m : Z) (mvb : list byte) (fuel : nat) :
  forall j ro, (Z.to_nat (j + 1) < fuel)%nat ->
    collectLoop d floor m fuel mvb j ro <> OutOfFuel.
Proof.
  induction fuel as [|fuel IH]; intros j ro Hf; [lia|].
  cbn [collectLoop].
  destruct (Z.geb_spec j 0) as [Hj|]; [|discriminate].
  destruct (j >=? floor); [|discriminate]. cbn [andb].
  destruct (j + m >? len d); [apply IH; lia|].
  pose proof (slice_fuel d j (j + m)) as Hs.
  destruct (slice d j (j + m)) as [x| |]; cbn [bind]; try discriminate;
    [|contradiction].
  destruct (bytesEqual x mvb); [|apply IH; lia].
  destruct ro as [ks|]; cbn [mapInsert bind]; [apply IH; lia|discriminate].
Qed.

Lemma longestMostRecentBackRef_fuel (i floor m : Z) :
  longestMostRecentBackRef d i floor m <> OutOfFuel.
Proof.
  unfold longestMostRecentBackRef.
  pose proof (slice_fuel d i (i + m)) as Hs.
  destruct (slice d i (i + m)) as [mvb| |]; cbn [bind];
    try discriminate; [|contradiction].
  destruct (collectLoop d floor m _ mvb (i - 1) None) as [r| |] eqn:E;
    cbn [bind]; try discriminate.
  - apply collectLoop_nil_returns in E. subst r. cbn. discriminate.
  - exfalso. revert E. apply collectLoop_fuel. lia.
Qed.

Lemma literalOrBackRef_fuel (i : Z) (out : list byte) :
  0 <= i -> literalOrBackRef cost d s i out <> OutOfFuel.
Proof.
  intros Hi. unfold literalOrBackRef.
  pose proof (index_fuel d i) as Hidx.
  destruct (index d i) as [b| |] eqn:Eb; cbn [bind]; try discriminate;
    [|contradiction].
  destruct (viableLoop cost d s _ i 2 _ false) as [mv| |] eqn:Ev;
    cbn [bind]; try discriminate.
  2:{ exfalso. revert Ev. apply viableLoop_fuel; [lia|lia|].
      unfold len. lia. }
  destruct (longestMostRecentBackRef d i _ mv) as [[a l]| |] eqn:Em;
    cbn [bind]; try discriminate.
  2:{ exfalso. revert Em. apply longestMostRecentBackRef_fuel. }
  destruct (negb (l =? -1)); [|discriminate].
  pose proof (emitBackRef_fuel s out (i - a - 1) (l - 1)) as He.
  destruct (emitBackRef s out _ _); cbn [bind]; try discriminate.
  contradiction.
Qed.


Lemma emitBackRef_Returns_fits (out out' : list byte) (offset length : Z) :
  emitBackRef s out offset length = Returns out' ->
  0 <= offset - 1 < 2 ^ (8 * Z.of_N (NbBytesAddress s))
  /\ 0 <= length - 1 < 2 ^ (8 * Z.of_N (NbBytesLength s)).
Proof.
  unfold emitBackRef. intros H.
  destruct (Z_lt_le_dec (offset - 1) 0) as [Ha|Ha].
  { rewrite emit_overflow in H by lia. discriminate. }
  destruct (Z_lt_le_dec (offset - 1) (2 ^ (8 * Z.of_N (NbBytesAddress s))))
    as [Ha'|Ha']; cycle 1.
  { rewrite emit_overflow in H by lia. discriminate. }
  rewrite emit_fits in H by lia. cbn [bind] in H.
  destruct (Z_lt_le_dec (length - 1) 0) as [Hl|Hl].
  { rewrite emit_overflow in H by lia. discriminate. }
  destruct (Z_lt_le_dec (length - 1) (2 ^ (8 * Z.of_N (NbBytesLength s))))
    as [Hl'|Hl']; cycle 1.
  { rewrite emit_overflow in H by lia. discriminate. }
  lia.
Qed.

(** The marker search ends in its first pass or not at all. *)
Lemma searchLoop_first_pass (fuel : nat) (i rl : Z) (out : list byte) :
  0 <= i <= len d ->
  (forall fuel' out', searchLoop d s fuel' i rl out' = OutOfFuel)
  \/ (searchLoop d s (S fuel) i rl out <> OutOfFuel
      /\ forall fuel',
          searchLoop d s (S fuel') i rl out = searchLoop d s (S fuel) i rl out).
Proof.
  intros Hi. cbn [searchLoop].
  destruct (rl >? 0) eqn:Hrl; [|right; split; [discriminate|reflexivity]].
  pose proof (scanLoop_fuel (S (Z.to_nat i)) rl (i - 1) 0 0 0
                            ltac:(lia) ltac:(lia)) as Hscan.
  destruct (scanLoop d s _ rl (i - 1) 0 0 0) as [[[a b] c]| |] eqn:Es;
    cbn [bind]; [| right; split; [discriminate|reflexivity] | contradiction].
  destruct (c =? 0) eqn:Hc; [right; split; [discriminate|reflexivity]|].
  pose proof (emitBackRef_fuel s out (i - b) a) as He.
  destruct (emitBackRef s out (i - b) a) as [out1| |] eqn:Ee; cbn [bind];
    [| right; split; [discriminate|reflexivity] | contradiction].
  left. apply emitBackRef_Returns_fits in Ee as [Ha Hl].
  now apply (searchLoop_stuck d s i rl a b c).
Qed.

Lemma iteration_Continue (fuel : nat) (i : Z) (out : list byte)
      (i' : Z) (out' : list byte) :
  iteration cost d s fuel i out = Returns (Continue i' out') ->
  i < i' /\ forall fuel', iteration cost d s fuel' i out
                          = Returns (Continue i' out').
Proof.
  unfold iteration, markerRun. intros H.
  destruct (index d i) as [b| |]; cbn [bind] in *; try discriminate.
  destruct (Byte.eqb b (Symbol s)).
  - destruct (getRunLength d s i _) as [rl| |] eqn:Erl; cbn [bind] in *;
      try discriminate.
    apply getRunLength_returns in Erl as [Hrl _].
    destruct (i =? 0).
    + destruct (emitBackRef s out 1 rl); cbn [bind] in *; try discriminate.
      injection H as <- <-. split; [lia|reflexivity].
    + destruct (i <=? backRefAddressRange s).
      * destruct (emit out i _); cbn [bind] in *; try discriminate.
        destruct (emit _ (rl - 1) _); cbn [bind] in *; try discriminate.
        injection H as <- <-. split; [lia|reflexivity].
      * apply searchLoop_returns in H as [msg Hm]. discriminate.
  - pose proof (literalOrBackRef_returns _ _ _ _ _ _ H) as (b' & _ & E & _).
    injection E as -> _. split; [lia|]. intros _. exact H.
Qed.

Lemma iteration_first_pass (fuel : nat) (i : Z) (out : list byte) :
  0 <= i < len d ->
  (forall fuel', iteration cost d s fuel' i out = OutOfFuel)
  \/ (iteration cost d s (S fuel) i out <> OutOfFuel
      /\ forall fuel', iteration cost d s (S fuel') i out
                       = iteration cost d s (S fuel) i out).
Proof.
  intros Hi. unfold iteration, markerRun.
  pose proof (index_fuel d i) as Hidx.
  destruct (index d i) as [b| |]; cbn [bind];
    [| right; split; [discriminate|reflexivity] | contradiction].
  destruct (Byte.eqb b (Symbol s)).
  - pose proof (getRunLength_fuel i (i + 1 + backRefLengthRange s)
                                  ltac:(lia)) as Hrun.
    destruct (getRunLength d s i _) as [rl| |]; cbn [bind];
      [| right; split; [discriminate|reflexivity] | contradiction].
    destruct (i =? 0).
    + right. split; [|reflexivity].
      pose proof (emitBackRef_fuel s out 1 rl).
      destruct (emitBackRef s out 1 rl); cbn [bind]; congruence.
    + destruct (i <=? backRefAddressRange s).
      * right. split; [|reflexivity].
        pose proof (emit_fuel out i
          (BackRefSettings.NbBytesAddress (BackRefSettings s))).
        destruct (emit out i _) as [o1| |]; cbn [bind]; try congruence.
        pose proof (emit_fuel o1 (rl - 1)
          (BackRefSettings.NbBytesLength (BackRefSettings s))).
        destruct (emit o1 _ _); cbn [bind]; congruence.
      * destruct (searchLoop_first_pass fuel i rl out) as [H|H]; [lia| |].
        -- left. intros fuel'. apply H.
        -- right. exact H.
  - right. split; [|reflexivity]. apply literalOrBackRef_fuel. lia.
Qed.

(** A run of the main loop that is cut although it was given more fuel than
    bytes are left is cut whatever the fuel: the input makes [Compress] run
    for ever. *)
Lemma mainLoop_cut_diverges (fuel' : nat) :
  forall (fuel : nat) (i : Z) (out : list byte),
    0 <= i -> (Z.to_nat (len d - i) < fuel)%nat ->
    mainLoop cost d s fuel i out = OutOfFuel ->
    mainLoop cost d s fuel' i out = OutOfFuel.
Proof.
  induction fuel' as [|fuel' IH]; intros fuel i out Hi Hf Hcut;
    [reflexivity|].
  destruct fuel as [|fuel]; [lia|].
  cbn [mainLoop] in *.
  destruct (Z.ltb_spec i (len d)) as [Hlt|]; [|discriminate].
  destruct fuel as [|fuel]; [lia|].
  destruct (iteration_first_pass fuel i out) as [Hdiv|[Hne Hsame]]; [lia| |].
  - now rewrite Hdiv.
  - destruct (iteration cost d s (S fuel) i out) as [[i1 out1|c e]| |] eqn:E;
      cbn [bind] in Hcut; try discriminate; [|contradiction].
    apply iteration_Continue in E as [Hi1 E]. rewrite E. cbn [bind].
    apply (IH (S fuel) i1 out1); [lia|lia|exact Hcut].
Qed.

Lemma iteration_fuel_mono (fuel k : nat) (i : Z) (out : list byte) :
  0 <= i < len d ->
  iteration cost d s fuel i out <> OutOfFuel ->
  iteration cost d s (fuel + k) i out = iteration cost d s fuel i out.
Proof.
  intros Hi Hne. destruct fuel as [|fuel].
  - apply iteration_without_search; [reflexivity|exact Hne].
  - destruct (iteration_first_pass fuel i out) as [Hdiv|[_ Hsame]]; [lia| |].
    + now rewrite Hdiv in Hne.
    + apply Hsame.
Qed.

(** More fuel does not change a result. *)
Lemma mainLoop_fuel_mono (fuel : nat) :
  forall (i : Z) (out : list byte) (k : nat),
    0 <= i ->
    mainLoop cost d s fuel i out <> OutOfFuel ->
    mainLoop cost d s (fuel + k) i out = mainLoop cost d s fuel i out.
Proof.
  induction fuel as [|fuel IH]; intros i out k Hi Hne;
    [now contradiction Hne|].
  cbn [mainLoop Nat.add] in *.
  destruct (Z.ltb_spec i (len d)) as [Hlt|]; [|reflexivity].
  rewrite iteration_fuel_mono; [|lia|].
  - destruct (iteration cost d s fuel i out) as [[i1 out1|c e]| |] eqn:E;
      cbn [bind] in *; try reflexivity.
    apply iteration_Continue in E as [Hi1 _]. apply IH; [lia|exact Hne].
  - intros E. now rewrite E in Hne.
Qed.

End Fuel.

Lemma Compress_fuel_mono (cost : byte -> Z) (d : list byte) (s : Settings)
      (fuel k : nat) :
  Compress cost d s fuel <> OutOfFuel ->
  Compress cost d s (fuel + k) = Compress cost d s fuel.
Proof.
  unfold Compress.
  destruct (ReferenceTarget_eqb _ _); [reflexivity|].
  destruct (AddressingModeKind_eqb _ _); [reflexivity|].
  destruct (Log s); [reflexivity|].
  apply mainLoop_fuel_mono. lia.
Qed.

Lemma Compress_cut_diverges (cost : byte -> Z) (d : list byte) (s : Settings)
      (fuel : nat) :
  (List.length d < fuel)%nat ->
  Compress cost d s fuel = OutOfFuel ->
  forall fuel', Compress cost d s fuel' = OutOfFuel.
Proof.
  unfold Compress. intros Hf.
  destruct (ReferenceTarget_eqb _ _); [discriminate|].
  destruct (AddressingModeKind_eqb _ _); [discriminate|].
  destruct (Log s); [discriminate|].
  intros H fuel'. apply (mainLoop_cut_diverges cost d s fuel' fuel);
    [lia|unfold len; lia|exact H].
Qed.

(** ** The claims *)

(** C1 (round trip). [Compress] succeeds on a run of markers and writes the
    two fields of a backreference without the marker byte in front. With the
    marker [0xff], three markers compress to [00 02], which both decoders
    read as two literals; with the marker [0x00], one marker compresses to
    [00 00], which both decoders reject as a truncated token. In neither
    case does decoding give back the input. *)
Theorem roundtrip_fails_on_marker_run (cost : byte -> Z) (fuel : nat) :
  Compress cost [xff; xff; xff] (settings11 xff) (S (S fuel))
  = Returns ([x00; x02], None)
  /\ decodeStrict (settings11 xff) [x00; x02] = Returns (Some [x00; x02])
  /\ decodeLenient (settings11 xff) [x00; x02] = Returns (Some [x00; x02])
  /\ Compress cost [x00] (settings11 x00) (S (S fuel))
     = Returns ([x00; x00], None)
  /\ decodeStrict (settings11 x00) [x00; x00] = Returns None
  /\ decodeLenient (settings11 x00) [x00; x00] = Returns None.
Proof. repeat split; reflexivity. Qed.

(** C2 (no bare marker). The output for one marker [0x00] is [00 00]: its
    first byte is the marker, and only one byte follows where a token needs
    two. The output for six markers [0x05] is [00 05]: a literal, then the
    marker with nothing behind it. The walk with the token grammar fails on
    both. *)
Theorem bare_marker_in_output (cost : byte -> Z) (fuel : nat) :
  Compress cost [x00] (settings11 x00) (S (S fuel))
  = Returns ([x00; x00], None)
  /\ walk (settings11 x00) [x00; x00] = Returns false
  /\ Compress cost (repeat x05 6) (settings11 x05) (S (S fuel))
     = Returns ([x00; x05], None)
  /\ walk (settings11 x05) [x00; x05] = Returns false.
Proof. repeat split; reflexivity. Qed.

(** C3 (wire format). [emitBackRef] appends the token of the spec without
    its first byte, the marker, or panics because a field does not fit; for
    the single marker [0xff], [Compress] returns [00 00] where the token is
    [ff 00 00]. *)
Theorem backref_written_without_marker
        (s : Settings) (out : list byte) (offset length : Z)
        (cost : byte -> Z) (fuel : nat) :
  (exists fields,
      backRefToken s offset length = Symbol s :: fields
      /\ (emitBackRef s out offset length = Returns (out ++ fields)
          \/ emitBackRef s out offset length
             = Panics (ExplicitPanic "n does not fit in nbBytes")))
  /\ Compress cost [xff] (settings11 xff) (S (S fuel))
     = Returns ([x00; x00], None)
  /\ backRefToken (settings11 xff) 1 1 = [xff; x00; x00].
Proof.
  split; [|split; reflexivity].
  eexists. split; [reflexivity|]. apply emitBackRef_bytes.
Qed.

(** The three outcomes of the matcher for a position [i] and a minimum
    length [m] inside the input: [longestMostRecentBackRef] returns
    [(-1, -1)] exactly when no start of the window matches the first [m]
    bytes; when one does, it panics on the write to its nil map; and it
    never returns a match. *)
Theorem matcher_panics_on_any_match (d : list byte) (i floor m : Z) :
  0 <= i -> 1 <= m -> i + m <= len d ->
  (longestMostRecentBackRef d i floor m = Returns (-1, -1)
   <-> (forall j, 0 <= j -> floor <= j -> j < i ->
                  slice d j (j + m) <> slice d i (i + m)))
  /\ ((exists j, 0 <= j /\ floor <= j /\ j < i /\
                 slice d j (j + m) = slice d i (i + m)) ->
      longestMostRecentBackRef d i floor m = Panics AssignmentToNilMap)
  /\ (forall a l, longestMostRecentBackRef d i floor m = Returns (a, l) ->
                  a = -1 /\ l = -1).
Proof.
  intros Hi Hm Hlen.
  destruct (longestMostRecentBackRef_spec d i floor m) as [Hnone Hsome];
    [lia|lia|lia|].
  split; [split|split].
  - intros Hret j Hj Hf Hji E.
    rewrite Hsome in Hret; [discriminate|].
    exists j. auto.
  - exact Hnone.
  - exact Hsome.
  - intros a l. apply longestMostRecentBackRef_returns.
Qed.

Lemma matcher_panics_on_any_match_witness :
  0 <= 2 /\ 1 <= 2 /\ 2 + 2 <= len [x01; x02; x01; x02]
  /\ slice [x01; x02; x01; x02] 0 (0 + 2) = slice [x01; x02; x01; x02] 2 (2 + 2)
  /\ longestMostRecentBackRef [x01; x02; x01; x02] 2 (-255) 2
     = Panics AssignmentToNilMap.
Proof.
  assert (H0 : 0 <= 2) by lia.
  assert (H1 : 1 <= 2) by lia.
  assert (H2 : 2 + 2 <= len [x01; x02; x01; x02]) by (vm_compute; discriminate).
  refine (conj H0 (conj H1 (conj H2 (conj eq_refl _)))).
  apply (proj1 (proj2 (matcher_panics_on_any_match
                         [x01; x02; x01; x02] 2 (-255) 2 H0 H1 H2))).
  exists 0. repeat split; try lia.
Defined.



(** C5 (general-case emission). On [01 02 01 02] the pair at position 2
    repeats the pair at position 0, a match at distance 2 and of length 2;
    [Compress] writes no backreference for it and panics in the matcher. *)
Theorem repeated_pair_panics (fuel : nat) :
  slice [x01; x02; x01; x02] 0 2 = slice [x01; x02; x01; x02] 2 4
  /\ Compress calldataCost [x01; x02; x01; x02] (settings11 x00)
              (S (S (S fuel)))
     = Panics AssignmentToNilMap.
Proof. split; reflexivity. Qed.

(** C6 (deterministic completion). On [farMarkerInput] the marker at
    position 257 lies beyond the one-byte address range; the backward scan
    stops at the marker of position 130, the emission fits, and the loop
    [for runLength > 0] repeats the same pass for ever: every fuel runs
    out. *)
Theorem far_marker_run_diverges (fuel : nat) :
  Compress calldataCost farMarkerInput (settings11 x00) fuel = OutOfFuel.
Proof.
  apply (Compress_cut_diverges _ _ _ 260).
  - vm_compute. lia.
  - vm_compute. reflexivity.
Qed.

(** C7 (cost-driven fallback). When no byte of a non-empty input is the
    marker and every other byte is free while a backreference is not,
    [Compress] panics at the first byte: the minimum viable length stays
    [-1], and the matcher slices [d[0 : -1]]. *)
Theorem free_literals_panic
        (cost : byte -> Z) (d : list byte) (s : Settings) (fuel : nat) :
  supported s -> d <> [] ->
  Forall (fun b => b <> Symbol s) d ->
  (forall b, b <> Symbol s -> cost b = 0) ->
  0 < minNontrivialBackRefCost cost s ->
  Compress cost d s (S fuel) = Panics SliceBoundsOutOfRange.
Proof.
  intros Hs Hd Hno Hfree Hpos.
  now apply Compress_free_literals_panics.
Qed.

Lemma free_literals_panic_witness :
  supported (settings11 x00)
  /\ 0 < minNontrivialBackRefCost freeCost (settings11 x00)
  /\ Compress freeCost [x01; x02; x03] (settings11 x00) 1
     = Panics SliceBoundsOutOfRange.
Proof.
  assert (Hs : supported (settings11 x00)) by (repeat split).
  assert (Hp : 0 < minNontrivialBackRefCost freeCost (settings11 x00))
    by (vm_compute; reflexivity).
  refine (conj Hs (conj Hp _)).
  apply (free_literals_panic freeCost [x01; x02; x03] (settings11 x00) 0 Hs).
  - discriminate.
  - repeat constructor; discriminate.
  - reflexivity.
  - exact Hp.
Defined.

(** C8 (bootstrap). An input of [k] markers, [k] within the length range,
    compresses successfully, and the output is the backreference token for
    offset 1 and length [k] without its first byte, the marker. *)
Theorem bootstrap_output_lacks_marker
        (cost : byte -> Z) (s : Settings) (k fuel : nat) :
  supported s -> (NbBytesLength s <= 8)%N ->
  (1 <= k)%nat -> Z.of_nat k <= backRefLengthRange s ->
  exists c,
    Compress cost (repeat (Symbol s) k) s (S (S fuel)) = Returns (c, None)
    /\ backRefToken s 1 (Z.of_nat k) = Symbol s :: c.
Proof.
  intros Hs Hw Hk Hr. eexists. split.
  - now apply Compress_marker_run.
  - reflexivity.
Qed.

Lemma bootstrap_output_lacks_marker_witness :
  supported (settings11 xff)
  /\ (NbBytesLength (settings11 xff) <= 8)%N
  /\ (1 <= 3)%nat
  /\ Z.of_nat 3 <= backRefLengthRange (settings11 xff)
  /\ exists c,
      Compress calldataCost (repeat xff 3) (settings11 xff) 2
      = Returns (c, None)
      /\ backRefToken (settings11 xff) 1 3 = xff :: c.
Proof.
  assert (Hs : supported (settings11 xff)) by (repeat split).
  assert (Hw : (NbBytesLength (settings11 xff) <= 8)%N)
    by (vm_compute; discriminate).
  assert (Hk : (1 <= 3)%nat) by lia.
  assert (Hr : Z.of_nat 3 <= backRefLengthRange (settings11 xff))
    by (vm_compute; discriminate).
  refine (conj Hs (conj Hw (conj Hk (conj Hr _)))).
  exact (bootstrap_output_lacks_marker calldataCost (settings11 xff) 3 0
                                       Hs Hw Hk Hr).
Defined.

(** C9 (unsupported settings). With a compressed reference target, absolute
    addressing or logging switched on, [Compress] returns the nil output and
    an error whatever the input and before any pass of the main loop; the
    error names the first unsupported setting, and the three errors differ. *)
Theorem unsupported_settings_rejected
        (cost : byte -> Z) (d : list byte) (s : Settings) (fuel : nat) :
  ReferenceTo s = Compressed \/ AddressingMode s = Absolute \/ Log s = true ->
  exists msg : string,
    Compress cost d s fuel = Returns ([], Some msg)
    /\ Compress cost d s fuel = Compress cost [] s 0
    /\ (ReferenceTo s = Compressed ->
        msg = "compressed ref not implemented"%string)
    /\ (ReferenceTo s = Uncompressed -> AddressingMode s = Absolute ->
        msg = "absolute addressing not implemented"%string)
    /\ (ReferenceTo s = Uncompressed -> AddressingMode s = Relative ->
        msg = "logging not implemented"%string)
    /\ "compressed ref not implemented"%string
       <> "absolute addressing not implemented"%string
    /\ "compressed ref not implemented"%string
       <> "logging not implemented"%string
    /\ "absolute addressing not implemented"%string
       <> "logging not implemented"%string.
Proof.
  intros H. unfold Compress.
  destruct (ReferenceTo s) eqn:Er; cbn [ReferenceTarget_eqb].
  - destruct (AddressingMode s) eqn:Ea; cbn [AddressingModeKind_eqb].
    + destruct (Log s) eqn:El.
      * eexists. repeat split; try reflexivity; try discriminate.
      * exfalso. destruct H as [H|[H|H]]; discriminate.
    + eexists. repeat split; try reflexivity; try discriminate.
  - eexists. repeat split; try reflexivity; try discriminate.
Qed.

Lemma unsupported_settings_rejected_witness :
  (ReferenceTo (mkSettings x00 1 1 (BackRefSettings.mk 1 1)
                           Uncompressed Absolute false) = Compressed
   \/ AddressingMode (mkSettings x00 1 1 (BackRefSettings.mk 1 1)
                                 Uncompressed Absolute false) = Absolute
   \/ Log (mkSettings x00 1 1 (BackRefSettings.mk 1 1)
                      Uncompressed Absolute false) = true)
  /\ exists msg : string,
      Compress calldataCost [x01; x02]
               (mkSettings x00 1 1 (BackRefSettings.mk 1 1)
                           Uncompressed Absolute false) 5
      = Returns ([], Some msg)
      /\ msg = "absolute addressing not implemented"%string.
Proof.
  assert (H : ReferenceTo (mkSettings x00 1 1 (BackRefSettings.mk 1 1)
                                      Uncompressed Absolute false) = Compressed
              \/ AddressingMode (mkSettings x00 1 1 (BackRefSettings.mk 1 1)
                                            Uncompressed Absolute false)
                 = Absolute
              \/ Log (mkSettings x00 1 1 (BackRefSettings.mk 1 1)
                                 Uncompressed Absolute false) = true)
    by (right; left; reflexivity).
  split; [exact H|].
  destruct (unsupported_settings_rejected calldataCost [x01; x02] _ 5 H)
    as (msg & Hc & _ & _ & Ha & _).
  exists msg. split; [exact Hc|]. apply Ha; reflexivity.
Defined.

(** C10 (totality). [Compress] panics on well-formed inputs in each of the
    three places: the slice [d[0 : -1]] for a single byte other than the
    marker; the write to the nil candidate map for [07 07 07]; and [emit] for
    257 markers with a one-byte length field. *)
Theorem Compress_panics (cost : byte -> Z) (fuel : nat) :
  Compress cost [x01] (settings11 x00) (S fuel)
  = Panics SliceBoundsOutOfRange
  /\ Compress calldataCost [x07; x07; x07] (settings11 x00) (S (S fuel))
     = Panics AssignmentToNilMap
  /\ Compress cost (repeat x00 257) (settings11 x00) (S fuel)
     = Panics (ExplicitPanic "n does not fit in nbBytes").
Proof. repeat split; vm_compute; reflexivity. Qed.

(** ** Further facts about the same defects *)

(** The fields the general case would write for a match at [addr] of the
    returned [length]: the call [emitBackRef(i-addr-1, length-1)] subtracts
    one from values [emitBackRef] decrements again. *)
Lemma general_case_fields (s : Settings) (out : list byte) (i addr length : Z) :
  emitBackRef s out (i - addr - 1) (length - 1)
  = Returns (out ++ leBytes (N.to_nat (NbBytesAddress s)) (i - addr - 2)
                 ++ leBytes (N.to_nat (NbBytesLength s)) (length - 2))
  \/ emitBackRef s out (i - addr - 1) (length - 1)
     = Panics (ExplicitPanic "n does not fit in nbBytes").
Proof.
  replace (i - addr - 2) with (i - addr - 1 - 1) by lia.
  replace (length - 2) with (length - 1 - 1) by lia.
  apply emitBackRef_bytes.
Qed.

(** The token of the spec for three markers at the start of the input: the
    decoder of section 4.5 rejects it, its first source position being
    negative; reading the marker before the start of the output gives the
    three markers back. *)
Lemma bootstrap_token_decoding :
  decodeStrict (settings11 xff) (backRefToken (settings11 xff) 1 3)
  = Returns None
  /\ decodeLenient (settings11 xff) (backRefToken (settings11 xff) 1 3)
     = Returns (Some [xff; xff; xff]).
Proof. split; reflexivity. Qed.

(** A marker at position 256, the address range of a one-byte field: the
    branch taken for [i <= backRefAddressRange] passes 256 to [emit]. *)
Lemma boundary_marker_panics (fuel : nat) :
  Compress calldataCost
           (bytesOfNats (seq 1 255 ++ [1%nat; 0%nat; 7%nat]))
           (settings11 x00) (257 + fuel)
  = Panics (ExplicitPanic "n does not fit in nbBytes").
Proof.
  change (mainLoop calldataCost
                   (bytesOfNats (seq 1 255 ++ [1%nat; 0%nat; 7%nat]))
                   (settings11 x00) (257 + fuel) 0 []
          = Panics (ExplicitPanic "n does not fit in nbBytes")).
  vm_compute. reflexivity.
Qed.

(** * Further properties of the code *)

(** ** [emit] *)

Lemma byteOf_value (n : Z) : Z.of_N (Byte.to_N (byteOf n)) = n mod 256.
Proof.
  unfold byteOf.
  assert (Hr : 0 <= n mod 256 < 256) by (apply Z.mod_pos_bound; lia).
  destruct (Byte.of_N (Z.to_N (n mod 256))) as [b|] eqn:E.
  - apply Byte.to_of_N in E. rewrite E. lia.
  - apply Byte.of_N_None_iff in E. lia.
Qed.

Lemma leBytes_length (k : nat) (n : Z) : List.length (leBytes k n) = k.
Proof.
  revert n; induction k as [|k IH]; intros n; cbn [leBytes List.length];
    [reflexivity|]. now rewrite IH.
Qed.

Lemma leValue_leBytes (k : nat) (n : Z) :
  leValue (leBytes k n) = n mod 2 ^ (8 * Z.of_nat k).
Proof.
  revert n; induction k as [|k IH]; intros n; cbn [leBytes leValue].
  - change (2 ^ (8 * Z.of_nat 0)) with 1. now rewrite Z.mod_1_r.
  - rewrite IH, byteOf_value, Z.shiftr_div_pow2 by lia.
    replace (8 * Z.of_nat (S k)) with (8 + 8 * Z.of_nat k) by lia.
    rewrite Z.pow_add_r by lia. change (2 ^ 8) with 256.
    rewrite Z.rem_mul_r; [reflexivity|lia|].
    apply Z.pow_pos_nonneg; lia.
Qed.

(** X1. A value that fits in [nbBytes] bytes is appended by [emit] as
    exactly [nbBytes] bytes, what the buffer held staying in front, and the
    bytes read back as a little-endian number give the value. *)
Theorem emit_little_endian (bb : list byte) (n : Z) (nbBytes : N) :
  0 <= n < 2 ^ (8 * Z.of_N nbBytes) ->
  exists field,
    emit bb n nbBytes = Returns (bb ++ field)
    /\ List.length field = N.to_nat nbBytes
    /\ leValue field = n.
Proof.
  intros Hn. exists (leBytes (N.to_nat nbBytes) n). split; [|split].
  - now apply emit_fits.
  - apply leBytes_length.
  - rewrite leValue_leBytes, N_nat_Z. apply Z.mod_small. exact Hn.
Qed.

Lemma emit_little_endian_witness :
  0 <= 258 < 2 ^ (8 * Z.of_N 2)
  /\ exists field,
      emit [x07] 258 2 = Returns ([x07] ++ field)
      /\ List.length field = N.to_nat 2
      /\ leValue field = 258.
Proof.
  assert (H : 0 <= 258 < 2 ^ (8 * Z.of_N 2)) by (vm_compute; split; congruence).
  exact (conj H (emit_little_endian [x07] 258 2 H)).
Defined.

(** X2. [emit] either returns or panics with its own message: it panics
    exactly when the value is negative or needs more than [nbBytes] bytes
    (every value other than 0 for a width of 0), and in every other case it
    returns the buffer with the [nbBytes] little-endian bytes of the value
    appended. *)
Theorem emit_panics_iff (bb : list byte) (n : Z) (nbBytes : N) :
  (emit bb n nbBytes = Panics (ExplicitPanic "n does not fit in nbBytes")
   <-> (n < 0 \/ 2 ^ (8 * Z.of_N nbBytes) <= n))
  /\ (~ (n < 0 \/ 2 ^ (8 * Z.of_N nbBytes) <= n) ->
      emit bb n nbBytes = Returns (bb ++ leBytes (N.to_nat nbBytes) n))
  /\ (emit bb n nbBytes = Panics (ExplicitPanic "n does not fit in nbBytes")
      \/ emit bb n nbBytes = Returns (bb ++ leBytes (N.to_nat nbBytes) n)).
Proof.
  assert (Hret : ~ (n < 0 \/ 2 ^ (8 * Z.of_N nbBytes) <= n) ->
                 emit bb n nbBytes
                 = Returns (bb ++ leBytes (N.to_nat nbBytes) n)).
  { intros Hin. apply emit_fits. lia. }
  split; [split|split].
  - intros H.
    destruct (Z_lt_le_dec n 0) as [|Hlo]; [now left|].
    destruct (Z_lt_le_dec n (2 ^ (8 * Z.of_N nbBytes))) as [Hhi|]; [|now right].
    rewrite emit_fits in H by lia. discriminate.
  - apply emit_overflow.
  - exact Hret.
  - destruct (Z_lt_le_dec n 0) as [|Hlo];
      [left; apply emit_overflow; now left|].
    destruct (Z_lt_le_dec n (2 ^ (8 * Z.of_N nbBytes))) as [Hhi|Hhi].
    + right. apply Hret. lia.
    + left. apply emit_overflow. now right.
Qed.

(** ** [getRunLength] *)

Lemma runLoop_exit (d : list byte) (s : Settings) (cap : Z) (fuel : nat) :
  forall j, 0 <= j -> (Z.to_nat (len d - j) < fuel)%nat ->
    exists j',
      runLoop d s fuel j cap = Returns j'
      /\ j <= j' <= Z.max j (Z.min (len d) cap)
      /\ (forall k, j <= k < j' -> index d k = Returns (Symbol s))
      /\ (len d <= j' \/ cap <= j'
          \/ exists b, index d j' = Returns b /\ b <> Symbol s).
Proof.
  induction fuel as [|fuel IH]; intros j Hj Hf; [lia|].
  cbn [runLoop].
  destruct (Z.ltb_spec j (len d)) as [Hlt|Hge]; cycle 1.
  { exists j. repeat split; try lia; intros k Hk; lia. }
  destruct (Z.ltb_spec j cap) as [Hc|Hc]; cycle 1.
  { exists j. repeat split; try lia; intros k Hk; lia. }
  cbn [andb].
  destruct (index_in_range d j) as [b Hb]; [lia|]. rewrite Hb. cbn [bind].
  destruct (Byte.eqb b (Symbol s)) eqn:Eb.
  - apply Byte.byte_dec_bl in Eb. subst b.
    destruct (IH (j + 1)) as (j' & Hr & Hb' & Hrun & Hstop); [lia|lia|].
    exists j'. split; [exact Hr|]. split; [lia|]. split; [|exact Hstop].
    intros k Hk. destruct (Z.eq_dec k j) as [->|]; [exact Hb|apply Hrun; lia].
  - exists j. split; [reflexivity|]. split; [lia|]. split; [intros k Hk; lia|].
    right. right. exists b. split; [exact Hb|].
    intros ->. rewrite byte_eqb_refl in Eb. discriminate.
Qed.

(** X3. For a position [i >= 0], [getRunLength] returns without a panic a
    length of at least 1; the bytes after [d[i]] that it counts are all the
    marker; the count goes no further than the end of the input and the cap
    (the end of the input when the cap is [-1]), and it stops there or at
    the first byte that is not the marker. *)
Theorem getRunLength_counts_markers
        (d : list byte) (s : Settings) (i cap : Z) :
  0 <= i ->
  exists rl,
    getRunLength d s i cap = Returns rl
    /\ 1 <= rl
    /\ i + rl <= Z.max (i + 1)
                       (Z.min (len d) (if cap =? -1 then len d else cap))
    /\ (forall k, i + 1 <= k < i + rl -> index d k = Returns (Symbol s))
    /\ (len d <= i + rl
        \/ (if cap =? -1 then len d else cap) <= i + rl
        \/ exists b, index d (i + rl) = Returns b /\ b <> Symbol s).
Proof.
  intros Hi. unfold getRunLength.
  destruct (runLoop_exit d s (if cap =? -1 then len d else cap)
                         (S (List.length d)) (i + 1))
    as (j & Hr & Hb & Hrun & Hstop); [lia|unfold len; lia|].
  rewrite Hr. cbn [bind]. exists (j - i).
  replace (i + (j - i)) with j by lia.
  repeat split; try lia; assumption.
Qed.

Lemma getRunLength_counts_markers_witness :
  0 <= 1
  /\ exists rl,
      getRunLength [x01; x00; x00; x00; x02] (settings11 x00) 1 3 = Returns rl
      /\ 1 <= rl
      /\ 1 + rl <= Z.max (1 + 1)
                         (Z.min (len [x01; x00; x00; x00; x02])
                                (if 3 =? -1
                                 then len [x01; x00; x00; x00; x02] else 3))
      /\ (forall k, 1 + 1 <= k < 1 + rl ->
                    index [x01; x00; x00; x00; x02] k
                    = Returns (Symbol (settings11 x00)))
      /\ (len [x01; x00; x00; x00; x02] <= 1 + rl
          \/ (if 3 =? -1 then len [x01; x00; x00; x00; x02] else 3) <= 1 + rl
          \/ exists b, index [x01; x00; x00; x00; x02] (1 + rl) = Returns b
                       /\ b <> Symbol (settings11 x00)).
Proof.
  assert (H : 0 <= 1) by lia.
  exact (conj H (getRunLength_counts_markers
                   [x01; x00; x00; x00; x02] (settings11 x00) 1 3 H)).
Defined.

(** ** The backward scan for a run of markers *)

Section Scan.

Variable d : list byte.
Variable s : Settings.
Variables i rl : Z.
Hypothesis i_range : 0 <= i <= len d.
Hypothesis rl_pos : 1 <= rl.

Lemma scanLoop_invariant (fuel : nat) :
  forall k a b c,
    scanInv d s i rl k a b c -> (Z.to_nat (k + 1) < fuel)%nat ->
    exists a' b' c',
      scanLoop d s fuel rl k a b c = Returns (a', b', c')
      /\ scanPost d s i rl a' b' c'.
Proof.
  induction fuel as [|fuel IH];
    intros k a b c (Hk & Hc & Ha & Hcur & Hzero & Hbest) Hf; [lia|].
  cbn [scanLoop].
  destruct (Z.geb_spec k 0) as [Hk0|Hk0]; cycle 1.
  { (* the scan has passed position 0 *)
    assert (k = -1) by lia. subst k.
    exists a, b, c. split; [reflexivity|].
    repeat split; try lia; try (apply Hbest; lia).
    - intros Hc0. destruct (Hzero Hc0) as [|Hx]; [left; lia|right; exact Hx].
    - intros [Hi0|(x & Hx & Hne)].
      + destruct (Z.eq_dec c 0) as [|Hc1]; [assumption|].
        destruct Hcur as [Hle _]; lia.
      + destruct (Z.eq_dec c 0) as [|Hc1]; [assumption|exfalso].
        destruct Hcur as [_ Hrun]; [lia|].
        rewrite (Hrun 0) in Hx by lia. injection Hx as <-. contradiction. }
  destruct (index_in_range d k) as [x Hx]; [lia|]. rewrite Hx. cbn [bind].
  destruct (Byte.eqb x (Symbol s)) eqn:Ex.
  - (* the marker: the current run grows *)
    apply Byte.byte_dec_bl in Ex. subst x.
    assert (Hrun' : k + (c + 1) <= i
                    /\ forall p, k <= p < k + (c + 1) ->
                                 index d p = Returns (Symbol s)).
    { destruct (Z.eq_dec c 0) as [->|Hc1].
      - split; [lia|]. intros p Hp. replace p with k by lia. exact Hx.
      - destruct Hcur as [Hle Hrun]; [lia|]. split; [lia|].
        intros p Hp. destruct (Z.eq_dec p k) as [->|]; [exact Hx|].
        apply Hrun; lia. }
    destruct Hrun' as [Hle' Hrun'].
    destruct (Z.gtb_spec (c + 1) a) as [Hgt|Hngt].
    + destruct (Z.eqb_spec (c + 1) rl) as [Heq|Hneq].
      * exists (c + 1), k, (c + 1). split; [reflexivity|].
        repeat split; try lia; try (intros; lia).
        intros p Hp. apply Hrun'. lia.
      * apply IH; [|lia].
        repeat split; try lia.
        -- intros p Hp. apply Hrun'. lia.
        -- intros p Hp. apply Hrun'. lia.
    + apply IH; [|lia].
      repeat split; try lia; try (apply Hbest; lia).
      intros p Hp. apply Hrun'. lia.
  - (* another byte: the current run is over *)
    destruct (Z.gtb_spec 0 a) as [|_]; [lia|].
    apply IH; [|lia].
    repeat split; try lia; try (apply Hbest; lia).
    intros _. right. exists x. replace (k - 1 + 1) with k by lia.
    split; [exact Hx|]. intros ->. rewrite byte_eqb_refl in Ex. discriminate.
Qed.

End Scan.

(** X4. The backward scan that looks for an earlier run of the marker, from
    a position [i] inside the input and for a wanted length [runLength >= 1],
    ends without a panic. The longest run it reports has at most the wanted
    length and, when not empty, lies before [i] and holds only markers. When
    the wanted length was found, the current run is that run; otherwise the
    current run is the one that starts the input, so that it is 0, the case
    in which [Compress] answers "no backref found", exactly when [i = 0] or
    the first byte of the input is not the marker, whatever run was found in
    between. *)
Theorem scan_reports_marker_run (d : list byte) (s : Settings) (i rl : Z) :
  0 <= i <= len d -> 1 <= rl ->
  exists a b c,
    scanLoop d s (S (Z.to_nat i)) rl (i - 1) 0 0 0 = Returns (a, b, c)
    /\ 0 <= c <= a /\ a <= rl
    /\ (0 < a -> 0 <= b /\ b + a <= i
                 /\ forall p, b <= p < b + a -> index d p = Returns (Symbol s))
    /\ (a = rl -> c = rl)
    /\ (a < rl ->
        (c = 0 <-> i = 0 \/ exists x, index d 0 = Returns x /\ x <> Symbol s)).
Proof.
  intros Hi Hrl.
  apply (scanLoop_invariant d s i rl Hi Hrl); [|lia].
  repeat split; try lia; intros _; left; lia.
Qed.

Lemma scan_reports_marker_run_witness :
  0 <= 4 <= len [x01; x00; x00; x02; x00]
  /\ 1 <= 3
  /\ exists a b c,
      scanLoop [x01; x00; x00; x02; x00] (settings11 x00)
               (S (Z.to_nat 4)) 3 (4 - 1) 0 0 0 = Returns (a, b, c)
      /\ 0 <= c <= a /\ a <= 3
      /\ (0 < a -> 0 <= b /\ b + a <= 4
                   /\ forall p, b <= p < b + a ->
                                index [x01; x00; x00; x02; x00] p
                                = Returns (Symbol (settings11 x00)))
      /\ (a = 3 -> c = 3)
      /\ (a < 3 ->
          (c = 0 <-> 4 = 0 \/ exists x,
                index [x01; x00; x00; x02; x00] 0 = Returns x
                /\ x <> Symbol (settings11 x00))).
Proof.
  assert (H1 : 0 <= 4 <= len [x01; x00; x00; x02; x00])
    by (vm_compute; split; congruence).
  assert (H2 : 1 <= 3) by lia.
  exact (conj H1 (conj H2 (scan_reports_marker_run
                             [x01; x00; x00; x02; x00] (settings11 x00)
                             4 3 H1 H2))).
Defined.

(** ** [longestMostRecentBackRef] *)

Lemma collectLoop_nil_outcome (d : list byte) (floor m : Z)
      (mvb : list byte) :
  0 <= m ->
  forall (fuel : nat) (j : Z),
    (Z.to_nat (j + 1) < fuel)%nat ->
    collectLoop d floor m fuel mvb j None = Returns None
    \/ collectLoop d floor m fuel mvb j None = Panics AssignmentToNilMap.
Proof.
  intros Hm. induction fuel as [|fuel IH]; intros j Hf; [lia|].
  cbn [collectLoop].
  destruct (Z.geb_spec j 0) as [Hj|]; [|now left].
  destruct (j >=? floor); [|now left]. cbn [andb].
  destruct (Z.gtb_spec (j + m) (len d)) as [|Hle]; [apply IH; lia|].
  rewrite slice_in_range by lia. cbn [bind].
  destruct (bytesEqual _ mvb); [now right|apply IH; lia].
Qed.

(** X5. Whatever the capacity of [d], [longestMostRecentBackRef] panics on a
    slice out of bounds when the position or the minimum length is negative,
    as for the length [-1] that [Compress] passes when no length is viable.
    When the bytes to match, [d[i : i+minViableBackRefLen]], lie inside the
    input, no slice it takes is out of bounds: it returns [(-1, -1)] or
    panics on the write to its nil map. *)
Theorem matcher_slice_panic (d : list byte) (i floor m : Z) :
  (i < 0 \/ m < 0 ->
   longestMostRecentBackRef d i floor m = Panics SliceBoundsOutOfRange)
  /\ (0 <= i /\ 0 <= m /\ i + m <= len d ->
      longestMostRecentBackRef d i floor m = Returns (-1, -1)
      \/ longestMostRecentBackRef d i floor m = Panics AssignmentToNilMap).
Proof.
  unfold longestMostRecentBackRef. split.
  - intros Hneg. unfold slice.
    destruct (Z.leb_spec 0 i); [|reflexivity].
    destruct (Z.leb_spec i (i + m)); [lia|reflexivity].
  - intros (Hi & Hm & Hlen).
    rewrite slice_in_range by lia. cbn [bind].
    destruct (collectLoop_nil_outcome d floor m
                (firstn (Z.to_nat (i + m - i)) (skipn (Z.to_nat i) d))
                Hm (S (Z.to_nat i)) (i - 1)) as [E|E]; [lia| |];
      rewrite E; [left|right]; reflexivity.
Qed.

(** ** The branch of the main loop for a byte other than the marker *)

Lemma viableLoop_exit (cost : byte -> Z) (d : list byte) (s : Settings)
      (i : Z) (fuel : nat) :
  0 <= i ->
  forall mv c midRle,
    1 <= mv -> (Z.to_nat (len d - (i + mv) + 1) < fuel)%nat ->
    exists r,
      viableLoop cost d s fuel i mv c midRle = Returns r
      /\ (r = -1
          \/ (mv <= r /\ i + r <= len d
              /\ exists b, index d (i + r - 1) = Returns b /\ b <> Symbol s)).
Proof.
  intros Hi. induction fuel as [|fuel IH]; intros mv c midRle Hmv Hf; [lia|].
  cbn [viableLoop].
  destruct (Z.gtb_spec (i + mv) (len d)) as [|Hle].
  { exists (-1). split; [reflexivity|now left]. }
  destruct (index_in_range d (i + mv - 1)) as [x Hx]; [lia|].
  rewrite Hx. cbn [bind].
  destruct (Byte.eqb x (Symbol s)) eqn:Ex.
  - destruct (IH (mv + 1) c true) as (r & Hr & Hcase); [lia|lia|].
    exists r. split; [exact Hr|].
    destruct Hcase as [|(H1 & H2 & H3)]; [now left|right].
    split; [lia|]. split; assumption.
  - assert (Hne : x <> Symbol s).
    { intros ->. rewrite byte_eqb_refl in Ex. discriminate. }
    destruct (_ >=? _).
    + exists mv. split; [reflexivity|]. right.
      split; [lia|]. split; [lia|]. now exists x.
    + destruct (IH (mv + 1) ((if midRle then c + mv else c) + cost x) false)
        as (r & Hr & Hcase); [lia|lia|].
      exists r. split; [exact Hr|].
      destruct Hcase as [|(H1 & H2 & H3)]; [now left|right].
      split; [lia|]. split; assumption.
Qed.

(** X6. The loop that grows the minimum viable length of a backreference from
    a position [i >= 0] ends without a panic; it gives [-1], or a length of
    at least 2 whose bytes [d[i : i+length]] lie inside the input and end on
    a byte that is not the marker. *)
Theorem viable_length_in_bounds
        (cost : byte -> Z) (d : list byte) (s : Settings) (i c : Z) :
  0 <= i ->
  exists r,
    viableLoop cost d s (S (List.length d)) i 2 c false = Returns r
    /\ (r = -1
        \/ (2 <= r /\ i + r <= len d
            /\ exists b, index d (i + r - 1) = Returns b /\ b <> Symbol s)).
Proof.
  intros Hi. apply viableLoop_exit; [exact Hi|lia|unfold len; lia].
Qed.

Lemma viable_length_in_bounds_witness :
  0 <= 1
  /\ exists r,
      viableLoop calldataCost [x01; x02; x00; x03] (settings11 x00)
                 (S (List.length [x01; x02; x00; x03])) 1 2
                 (calldataCost x02) false = Returns r
      /\ (r = -1
          \/ (2 <= r /\ 1 + r <= len [x01; x02; x00; x03]
              /\ exists b, index [x01; x02; x00; x03] (1 + r - 1) = Returns b
                           /\ b <> Symbol (settings11 x00))).
Proof.
  assert (H : 0 <= 1) by lia.
  exact (conj H (viable_length_in_bounds
                   calldataCost [x01; x02; x00; x03] (settings11 x00)
                   1 (calldataCost x02) H)).
Defined.

(** X7. The branch for a byte other than the marker never writes a
    backreference: whenever it completes, it has appended the byte [d[i]]
    itself to the output and moved the position on by one. *)
Theorem literal_branch_writes_one_byte
        (cost : byte -> Z) (d : list byte) (s : Settings)
        (i : Z) (out : list byte) (r : control) :
  literalOrBackRef cost d s i out = Returns r ->
  exists b, index d i = Returns b /\ r = Continue (i + 1) (out ++ [b]).
Proof.
  intros H. apply literalOrBackRef_returns in H as (b & Hb & Hr & _).
  now exists b.
Qed.

Lemma literal_branch_writes_one_byte_witness :
  literalOrBackRef calldataCost [x01; x02; x03; x04] (settings11 x00) 0 [x09]
  = Returns (Continue 1 [x09; x01])
  /\ exists b, index [x01; x02; x03; x04] 0 = Returns b
               /\ Continue 1 [x09; x01] = Continue (0 + 1) ([x09] ++ [b]).
Proof.
  assert (H : literalOrBackRef calldataCost [x01; x02; x03; x04]
                               (settings11 x00) 0 [x09]
              = Returns (Continue 1 [x09; x01])) by reflexivity.
  exact (conj H (literal_branch_writes_one_byte
                   calldataCost [x01; x02; x03; x04] (settings11 x00)
                   0 [x09] (Continue 1 [x09; x01]) H)).
Defined.

Lemma viableLoop_trailing_markers (cost : byte -> Z) (d : list byte)
      (s : Settings) (i : Z) (fuel : nat) :
  0 <= i ->
  (forall k, i < k < len d -> index d k = Returns (Symbol s)) ->
  forall mv c midRle,
    2 <= mv -> (Z.to_nat (len d - (i + mv) + 1) < fuel)%nat ->
    viableLoop cost d s fuel i mv c midRle = Returns (-1).
Proof.
  intros Hi Hrest. induction fuel as [|fuel IH]; intros mv c midRle Hmv Hf;
    [lia|].
  cbn [viableLoop].
  destruct (Z.gtb_spec (i + mv) (len d)) as [|Hle]; [reflexivity|].
  rewrite Hrest by lia. cbn [bind]. rewrite byte_eqb_refl.
  apply IH; lia.
Qed.

(** X8. When the main loop stands on a byte that is not the marker and only
    markers, or nothing, come after it, the pass panics on a slice out of
    bounds: no viable length is found, and the matcher is called with
    [-1]. The last byte of an input is such a byte whenever it is not the
    marker. *)
Theorem last_literal_panics
        (cost : byte -> Z) (d : list byte) (s : Settings)
        (fuel : nat) (i : Z) (out : list byte) (b : byte) :
  index d i = Returns b -> b <> Symbol s ->
  (forall k, i < k < len d -> index d k = Returns (Symbol s)) ->
  iteration cost d s fuel i out = Panics SliceBoundsOutOfRange.
Proof.
  intros Hb Hne Hrest. pose proof (index_Returns _ _ _ Hb) as Hi.
  unfold iteration. rewrite Hb. cbn [bind].
  rewrite (byte_eqb_neq _ _ Hne). unfold literalOrBackRef.
  rewrite Hb. cbn [bind].
  rewrite (viableLoop_trailing_markers cost d s i);
    [|lia|exact Hrest|lia|unfold len in *; lia].
  cbn [bind]. unfold longestMostRecentBackRef.
  rewrite slice_reversed by lia. reflexivity.
Qed.

Lemma last_literal_panics_witness :
  index [x00; x05; x00; x00] 1 = Returns x05
  /\ x05 <> Symbol (settings11 x00)
  /\ iteration calldataCost [x00; x05; x00; x00] (settings11 x00) 3 1 [x00; x00]
     = Panics SliceBoundsOutOfRange.
Proof.
  assert (H1 : index [x00; x05; x00; x00] 1 = Returns x05) by reflexivity.
  assert (H2 : x05 <> Symbol (settings11 x00)) by discriminate.
  refine (conj H1 (conj H2 _)).
  apply (last_literal_panics calldataCost [x00; x05; x00; x00]
                             (settings11 x00) 3 1 [x00; x00] x05 H1 H2).
  intros k Hk.
  assert (Hk' : k = 2 \/ k = 3) by (unfold len in Hk; simpl in Hk; lia).
  destruct Hk' as [-> | ->]; reflexivity.
Defined.

(** ** [Compress] on runs of the marker *)

Lemma shl1_exact (n : N) :
  (n <= 7)%N -> shl1 (uint64 (Z.of_N n * 8)) = 2 ^ (8 * Z.of_N n).
Proof.
  intros Hw.
  assert (H : (n = 0 \/ n = 1 \/ n = 2 \/ n = 3 \/ n = 4 \/ n = 5
               \/ n = 6 \/ n = 7)%N) by lia.
  destruct H as [E|[E|[E|[E|[E|[E|[E|E]]]]]]]; subst n;
    vm_compute; reflexivity.
Qed.

Lemma Forall_eq_repeat (b : byte) (d : list byte) :
  Forall (fun x => x = b) d -> d = repeat b (List.length d).
Proof.
  induction 1 as [|x d Hx _ IH]; [reflexivity|].
  cbn [List.length repeat]. now rewrite <- IH, Hx.
Qed.

Lemma Compress_long_run (cost : byte -> Z) (s : Settings) (k fuel : nat) :
  supported s -> (NbBytesLength s <= 7)%N ->
  backRefLengthRange s < Z.of_nat k ->
  Compress cost (repeat (Symbol s) k) s (S fuel)
  = Panics (ExplicitPanic "n does not fit in nbBytes").
Proof.
  intros Hs Hw Hk. rewrite Compress_supported by assumption.
  assert (Hrange : backRefLengthRange s = 2 ^ (8 * Z.of_N (NbBytesLength s)))
    by (now apply shl1_exact).
  assert (Hpos : 0 < backRefLengthRange s)
    by (rewrite Hrange; apply Z.pow_pos_nonneg; lia).
  cbn [mainLoop]. unfold len at 1. rewrite repeat_length.
  destruct (Z.ltb_spec 0 (Z.of_nat k)); [|lia].
  unfold iteration. rewrite index_repeat by lia. cbn [bind].
  rewrite byte_eqb_refl. unfold markerRun, getRunLength.
  destruct (Z.eqb_spec (0 + 1 + backRefLengthRange s) (-1)); [lia|].
  destruct (runLoop_exit (repeat (Symbol s) k) s
                         (0 + 1 + backRefLengthRange s)
                         (S (List.length (repeat (Symbol s) k))) (0 + 1))
    as (j & Hr & Hb & Hrun & Hstop); [lia|unfold len; lia|].
  rewrite Hr. cbn [bind]. unfold len in Hb, Hstop.
  rewrite repeat_length in Hb, Hstop.
  assert (Hj : j = 1 + backRefLengthRange s).
  { destruct Hstop as [|[|(b & Hb' & Hne)]]; try lia.
    exfalso. pose proof (index_Returns _ _ _ Hb') as Hin.
    unfold len in Hin. rewrite repeat_length in Hin.
    rewrite index_repeat in Hb' by lia. injection Hb' as <-.
    now apply Hne. }
  subst j. change (0 =? 0) with true. cbv iota.
  unfold emitBackRef. rewrite emit_fits; cycle 1.
  { split; [lia|]. apply Z.pow_pos_nonneg; lia. }
  cbn [bind]. rewrite emit_overflow by lia. reflexivity.
Qed.

(** X9. A run of markers at the very start of the input that is longer than
    the length range makes [Compress] panic in [emit]: the run is cut one
    byte above the range, [backRefLengthRange + 1], and its length minus one
    does not fit in the length field. (Widths up to 7 bytes, for which the
    range is [2^(8*NbBytesLength)].) *)
Theorem long_marker_run_panics
        (cost : byte -> Z) (s : Settings) (k fuel : nat) :
  supported s -> (NbBytesLength s <= 7)%N ->
  backRefLengthRange s < Z.of_nat k ->
  Compress cost (repeat (Symbol s) k) s (S fuel)
  = Panics (ExplicitPanic "n does not fit in nbBytes").
Proof. apply Compress_long_run. Qed.

Lemma long_marker_run_panics_witness :
  supported (settings11 xff)
  /\ (NbBytesLength (settings11 xff) <= 7)%N
  /\ backRefLengthRange (settings11 xff) < Z.of_nat 300
  /\ Compress freeCost (repeat xff 300) (settings11 xff) 1
     = Panics (ExplicitPanic "n does not fit in nbBytes").
Proof.
  assert (Hs : supported (settings11 xff)) by (split; [|split]; reflexivity).
  assert (Hw : (NbBytesLength (settings11 xff) <= 7)%N)
    by (vm_compute; discriminate).
  assert (Hk : backRefLengthRange (settings11 xff) < Z.of_nat 300)
    by (vm_compute; reflexivity).
  exact (conj Hs (conj Hw (conj Hk
           (long_marker_run_panics freeCost (settings11 xff) 300 0
                                   Hs Hw Hk)))).
Defined.

(** X10. Under supported settings with a length field of at most 7 bytes,
    [Compress] returns an output (for some amount of fuel, that is: it ends
    and returns a nil error) exactly for the inputs that consist of markers
    only and are no longer than the length range; the empty input is one of
    them. Every other input ends in a panic, in an error or not at all. *)
Theorem Compress_succeeds_iff
        (cost : byte -> Z) (d : list byte) (s : Settings) :
  supported s -> (NbBytesLength s <= 7)%N ->
  ((exists fuel c, Compress cost d s fuel = Returns (c, None))
   <-> (Forall (fun b => b = Symbol s) d /\ len d <= backRefLengthRange s)).
Proof.
  intros Hs Hw. split.
  - intros (fuel & c & H).
    pose proof (Compress_success_only_markers _ _ _ _ _ H) as Hall.
    split; [exact Hall|].
    destruct (Z_le_gt_dec (len d) (backRefLengthRange s)) as [|Hgt];
      [assumption|exfalso].
    rewrite (Forall_eq_repeat _ _ Hall) in H.
    destruct fuel as [|fuel].
    + rewrite Compress_supported in H by assumption. discriminate.
    + rewrite Compress_long_run in H; [discriminate|assumption|assumption|].
      unfold len in Hgt. lia.
  - intros [Hall Hlen]. rewrite (Forall_eq_repeat _ _ Hall).
    destruct (List.length d) as [|k] eqn:Ek.
    + exists 1%nat, []. now rewrite Compress_supported.
    + exists 2%nat. eexists. apply Compress_marker_run; try assumption.
      * lia.
      * lia.
      * unfold len in Hlen. lia.
Qed.

Lemma Compress_succeeds_iff_witness :
  supported (settings11 xff)
  /\ (NbBytesLength (settings11 xff) <= 7)%N
  /\ ((exists fuel c,
          Compress calldataCost [xff; xff] (settings11 xff) fuel
          = Returns (c, None))
      <-> (Forall (fun b => b = Symbol (settings11 xff)) [xff; xff]
           /\ len [xff; xff] <= backRefLengthRange (settings11 xff))).
Proof.
  assert (Hs : supported (settings11 xff)) by (split; [|split]; reflexivity).
  assert (Hw : (NbBytesLength (settings11 xff) <= 7)%N)
    by (vm_compute; discriminate).
  exact (conj Hs (conj Hw (Compress_succeeds_iff
                             calldataCost [xff; xff] (settings11 xff)
                             Hs Hw))).
Defined.

(** ** The errors of [Compress] *)

Lemma mainLoop_error (cost : byte -> Z) (d : list byte) (s : Settings)
      (fuel : nat) :
  forall (i : Z) (out c : list byte) (msg : string),
    mainLoop cost d s fuel i out = Returns (c, Some msg) ->
    c = [] /\ msg = "no backref found"%string.
Proof.
  induction fuel as [|fuel IH]; intros i out c msg; cbn [mainLoop];
    [discriminate|].
  destruct (i <? len d); [|discriminate].
  unfold iteration.
  destruct (index d i) as [b| |]; cbn [bind]; try discriminate.
  destruct (Byte.eqb b (Symbol s)).
  - unfold markerRun.
    destruct (getRunLength d s i _) as [rl| |] eqn:Erl; cbn [bind];
      try discriminate.
    apply getRunLength_returns in Erl as [Hrl _].
    destruct (i =? 0).
    + destruct (emitBackRef s out 1 rl); cbn [bind]; try discriminate.
      apply IH.
    + destruct (i <=? backRefAddressRange s).
      * destruct (emit out i _); cbn [bind]; try discriminate.
        destruct (emit _ (rl - 1) _); cbn [bind]; try discriminate.
        apply IH.
      * destruct (searchLoop d s fuel i rl out) as [r| |] eqn:Es;
          cbn [bind]; try discriminate.
        apply searchLoop_error in Es; [|lia]. subst r.
        intros [= <- <-]. now split.
  - destruct (literalOrBackRef cost d s i out) as [r| |] eqn:El;
      cbn [bind]; try discriminate.
    apply literalOrBackRef_returns in El as (b1 & _ & -> & _).
    apply IH.
Qed.

(** X11. When [Compress] returns an error, its output is nil and the error
    is one of four: the three for unsupported settings, or "no backref
    found". The error "not yet implemented", which stands after the search
    loop in the source, is never returned. *)
Theorem Compress_errors
        (cost : byte -> Z) (d : list byte) (s : Settings) (fuel : nat)
        (c : list byte) (msg : string) :
  Compress cost d s fuel = Returns (c, Some msg) ->
  c = []
  /\ (msg = "compressed ref not implemented"%string
      \/ msg = "absolute addressing not implemented"%string
      \/ msg = "logging not implemented"%string
      \/ msg = "no backref found"%string).
Proof.
  unfold Compress.
  destruct (ReferenceTarget_eqb _ _); [intros [= <- <-]; auto|].
  destruct (AddressingModeKind_eqb _ _); [intros [= <- <-]; auto|].
  destruct (Log s); [intros [= <- <-]; auto 6|].
  intros H. apply mainLoop_error in H as [-> ->]. auto 6.
Qed.

Lemma Compress_errors_witness :
  Compress calldataCost
           (bytesOfNats (seq 1 130 ++ [0%nat] ++ seq 131 125
                             ++ [1%nat; 0%nat; 0%nat; 7%nat]))
           (settings11 x00) 300
  = Returns ([], Some "no backref found"%string)
  /\ [] = @nil byte
  /\ ("no backref found"%string = "compressed ref not implemented"%string
      \/ "no backref found"%string = "absolute addressing not implemented"%string
      \/ "no backref found"%string = "logging not implemented"%string
      \/ "no backref found"%string = "no backref found"%string).
Proof.
  assert (H : Compress calldataCost
                (bytesOfNats (seq 1 130 ++ [0%nat] ++ seq 131 125
                                  ++ [1%nat; 0%nat; 0%nat; 7%nat]))
                (settings11 x00) 300
              = Returns ([], Some "no backref found"%string))
    by (vm_compute; reflexivity).
  exact (conj H (Compress_errors _ _ _ _ _ _ H)).
Defined.

(** ** Runs of the marker after the start of the input *)

Lemma emitBackRef_overflow (s : Settings) (out : list byte) (offset length : Z) :
  ~ (0 <= offset - 1 < 2 ^ (8 * Z.of_N (NbBytesAddress s))
     /\ 0 <= length - 1 < 2 ^ (8 * Z.of_N (NbBytesLength s))) ->
  emitBackRef s out offset length
  = Panics (ExplicitPanic "n does not fit in nbBytes").
Proof.
  intros Hno.
  destruct (emitBackRef_bytes s out offset length) as [H|H]; [|exact H].
  apply emitBackRef_Returns_fits in H. contradiction.
Qed.

(** X12. The search for an earlier run of the marker, entered at a position
    [i] inside the input with a run length of at least 1, never hands
    control back to the main loop, and what it does depends neither on the
    output written so far nor on how long it runs. Its scan ends without a
    panic; when the current run of the scan is 0 the search returns "no
    backref found"; otherwise it panics in [emit] when the distance or the
    length found does not fit its field, and never ends when both fit. *)
Theorem marker_search_outcomes (d : list byte) (s : Settings) (i rl : Z) :
  0 <= i <= len d -> 1 <= rl ->
  exists a b c,
    scanLoop d s (S (Z.to_nat i)) rl (i - 1) 0 0 0 = Returns (a, b, c)
    /\ (c = 0 ->
        forall fuel out,
          searchLoop d s (S fuel) i rl out
          = Returns (Return [] (Some "no backref found"%string)))
    /\ (c <> 0 ->
        0 <= i - b - 1 < 2 ^ (8 * Z.of_N (NbBytesAddress s))
        /\ 0 <= a - 1 < 2 ^ (8 * Z.of_N (NbBytesLength s)) ->
        forall fuel out, searchLoop d s fuel i rl out = OutOfFuel)
    /\ (c <> 0 ->
        ~ (0 <= i - b - 1 < 2 ^ (8 * Z.of_N (NbBytesAddress s))
           /\ 0 <= a - 1 < 2 ^ (8 * Z.of_N (NbBytesLength s))) ->
        forall fuel out,
          searchLoop d s (S fuel) i rl out
          = Panics (ExplicitPanic "n does not fit in nbBytes")).
Proof.
  intros Hi Hrl.
  destruct (scanLoop_invariant d s i rl Hi Hrl (S (Z.to_nat i)) (i - 1) 0 0 0)
    as (a & b & c & Hscan & _); [|lia|].
  { repeat split; try lia; intros _; left; lia. }
  assert (Hgt : (rl >? 0) = true) by (apply Z.gtb_lt; lia).
  exists a, b, c. split; [exact Hscan|]. split; [|split].
  - intros -> fuel out. cbn [searchLoop]. rewrite Hgt, Hscan. reflexivity.
  - intros Hc [Ha Hl]. apply (searchLoop_stuck d s i rl a b c); try assumption.
    now apply Z.eqb_neq.
  - intros Hc Hno fuel out. cbn [searchLoop]. rewrite Hgt, Hscan. cbn [bind].
    apply Z.eqb_neq in Hc. rewrite Hc.
    rewrite emitBackRef_overflow; [reflexivity|].
    exact Hno.
Qed.

Lemma marker_search_outcomes_witness :
  0 <= 3 <= len [x01; x00; x02; x00]
  /\ 1 <= 1
  /\ exists a b c,
      scanLoop [x01; x00; x02; x00] (settings11 x00) (S (Z.to_nat 3)) 1
               (3 - 1) 0 0 0 = Returns (a, b, c)
      /\ (c = 0 ->
          forall fuel out,
            searchLoop [x01; x00; x02; x00] (settings11 x00) (S fuel) 3 1 out
            = Returns (Return [] (Some "no backref found"%string)))
      /\ (c <> 0 ->
          0 <= 3 - b - 1 < 2 ^ (8 * Z.of_N (NbBytesAddress (settings11 x00)))
          /\ 0 <= a - 1 < 2 ^ (8 * Z.of_N (NbBytesLength (settings11 x00))) ->
          forall fuel out,
            searchLoop [x01; x00; x02; x00] (settings11 x00) fuel 3 1 out
            = OutOfFuel)
      /\ (c <> 0 ->
          ~ (0 <= 3 - b - 1
             < 2 ^ (8 * Z.of_N (NbBytesAddress (settings11 x00)))
             /\ 0 <= a - 1
                < 2 ^ (8 * Z.of_N (NbBytesLength (settings11 x00)))) ->
          forall fuel out,
            searchLoop [x01; x00; x02; x00] (settings11 x00) (S fuel) 3 1 out
            = Panics (ExplicitPanic "n does not fit in nbBytes")).
Proof.
  assert (H1 : 0 <= 3 <= len [x01; x00; x02; x00])
    by (vm_compute; split; congruence).
  assert (H2 : 1 <= 1) by lia.
  exact (conj H1 (conj H2 (marker_search_outcomes
                             [x01; x00; x02; x00] (settings11 x00) 3 1
                             H1 H2))).
Defined.

Lemma getRunLength_returns_total (d : list byte) (s : Settings) (i cap : Z) :
  0 <= i -> exists rl, getRunLength d s i cap = Returns rl /\ 1 <= rl.
Proof.
  intros Hi. unfold getRunLength.
  destruct (runLoop_exit d s (if cap =? -1 then len d else cap)
                         (S (List.length d)) (i + 1))
    as (j & Hr & Hb & _); [lia|unfold len; lia|].
  rewrite Hr. cbn [bind]. exists (j - i). split; [reflexivity|lia].
Qed.

(** X13. A run of markers that starts at a position [i] with
    [0 < i <= backRefAddressRange] is written as two fields of the widths
    read through [settings.BackRefSettings]: the position [i] itself, then
    the run length minus one, and the position moves on by the run length.
    When [i] or the run length minus one does not fit its field, the pass
    panics in [emit]. *)
Theorem near_origin_run_fields
        (d : list byte) (s : Settings) (fuel : nat) (i : Z) (out : list byte) :
  0 < i -> i <= backRefAddressRange s ->
  exists rl,
    getRunLength d s i (i + 1 + backRefLengthRange s) = Returns rl
    /\ 1 <= rl
    /\ (i < 2 ^ (8 * Z.of_N (BackRefSettings.NbBytesAddress (BackRefSettings s))) ->
        rl - 1 < 2 ^ (8 * Z.of_N (BackRefSettings.NbBytesLength (BackRefSettings s))) ->
        markerRun d s fuel i out
        = Returns (Continue (i + rl)
             (out ++ leBytes (N.to_nat (BackRefSettings.NbBytesAddress
                                          (BackRefSettings s))) i
                  ++ leBytes (N.to_nat (BackRefSettings.NbBytesLength
                                          (BackRefSettings s))) (rl - 1))))
    /\ (2 ^ (8 * Z.of_N (BackRefSettings.NbBytesAddress (BackRefSettings s))) <= i
        \/ 2 ^ (8 * Z.of_N (BackRefSettings.NbBytesLength (BackRefSettings s)))
           <= rl - 1 ->
        markerRun d s fuel i out
        = Panics (ExplicitPanic "n does not fit in nbBytes")).
Proof.
  intros Hi Hnear.
  destruct (getRunLength_returns_total d s i (i + 1 + backRefLengthRange s))
    as (rl & Hrun & Hrl); [lia|].
  exists rl. split; [exact Hrun|]. split; [exact Hrl|].
  unfold markerRun. rewrite Hrun. cbn [bind].
  destruct (Z.eqb_spec i 0); [lia|].
  destruct (Z.leb_spec i (backRefAddressRange s)); [|lia].
  split.
  - intros Ha Hl. rewrite emit_fits by lia. cbn [bind].
    rewrite emit_fits by lia. cbn [bind]. now rewrite <- app_assoc.
  - intros [Ha|Hl].
    + rewrite emit_overflow by lia. reflexivity.
    + destruct (Z_lt_le_dec i
        (2 ^ (8 * Z.of_N (BackRefSettings.NbBytesAddress (BackRefSettings s)))))
        as [Ha|Ha].
      * rewrite emit_fits by lia. cbn [bind].
        rewrite emit_overflow by lia. reflexivity.
      * rewrite emit_overflow by lia. reflexivity.
Qed.

Lemma near_origin_run_fields_witness :
  0 < 1
  /\ 1 <= backRefAddressRange (settings11 x00)
  /\ exists rl,
      getRunLength [x01; x00; x00; x02] (settings11 x00) 1
                   (1 + 1 + backRefLengthRange (settings11 x00)) = Returns rl
      /\ 1 <= rl
      /\ (1 < 2 ^ (8 * Z.of_N (BackRefSettings.NbBytesAddress
                                 (BackRefSettings (settings11 x00)))) ->
          rl - 1 < 2 ^ (8 * Z.of_N (BackRefSettings.NbBytesLength
                                      (BackRefSettings (settings11 x00)))) ->
          markerRun [x01; x00; x00; x02] (settings11 x00) 0 1 [x01]
          = Returns (Continue (1 + rl)
               ([x01] ++ leBytes (N.to_nat (BackRefSettings.NbBytesAddress
                                    (BackRefSettings (settings11 x00)))) 1
                      ++ leBytes (N.to_nat (BackRefSettings.NbBytesLength
                                    (BackRefSettings (settings11 x00))))
                                 (rl - 1))))
      /\ (2 ^ (8 * Z.of_N (BackRefSettings.NbBytesAddress
                             (BackRefSettings (settings11 x00)))) <= 1
          \/ 2 ^ (8 * Z.of_N (BackRefSettings.NbBytesLength
                                (BackRefSettings (settings11 x00))))
             <= rl - 1 ->
          markerRun [x01; x00; x00; x02] (settings11 x00) 0 1 [x01]
          = Panics (ExplicitPanic "n does not fit in nbBytes")).
Proof.
  assert (H1 : 0 < 1) by lia.
  assert (H2 : 1 <= backRefAddressRange (settings11 x00))
    by (vm_compute; discriminate).
  exact (conj H1 (conj H2 (near_origin_run_fields
                             [x01; x00; x00; x02] (settings11 x00) 0 1 [x01]
                             H1 H2))).
Defined.

(** X14. The boundary of that branch: when both pairs of widths agree and
    the address field has at most 7 bytes, a marker that stands exactly at
    position [backRefAddressRange], which the test [i <= backRefAddressRange]
    lets through, makes the pass panic in [emit], the position needing one
    bit more than the address field has. *)
Theorem boundary_run_panics
        (cost : byte -> Z) (d : list byte) (s : Settings)
        (fuel : nat) (i : Z) (out : list byte) :
  (NbBytesAddress s <= 7)%N ->
  BackRefSettings.NbBytesAddress (BackRefSettings s) = NbBytesAddress s ->
  index d i = Returns (Symbol s) ->
  i = backRefAddressRange s ->
  iteration cost d s fuel i out
  = Panics (ExplicitPanic "n does not fit in nbBytes").
Proof.
  intros Hw Hsame Hidx Hi.
  assert (Hrange : backRefAddressRange s = 2 ^ (8 * Z.of_N (NbBytesAddress s)))
    by (now apply shl1_exact).
  assert (Hpos : 0 < backRefAddressRange s)
    by (rewrite Hrange; apply Z.pow_pos_nonneg; lia).
  unfold iteration. rewrite Hidx. cbn [bind]. rewrite byte_eqb_refl.
  unfold markerRun.
  destruct (getRunLength_returns_total d s i (i + 1 + backRefLengthRange s))
    as (rl & Hrun & _); [lia|].
  rewrite Hrun. cbn [bind].
  destruct (Z.eqb_spec i 0); [lia|].
  destruct (Z.leb_spec i (backRefAddressRange s)); [|lia].
  rewrite Hsame, emit_overflow by lia. reflexivity.
Qed.

Lemma boundary_run_panics_witness :
  (NbBytesAddress (settings11 x00) <= 7)%N
  /\ BackRefSettings.NbBytesAddress (BackRefSettings (settings11 x00))
     = NbBytesAddress (settings11 x00)
  /\ index (repeat x00 257) 256 = Returns (Symbol (settings11 x00))
  /\ 256 = backRefAddressRange (settings11 x00)
  /\ iteration freeCost (repeat x00 257) (settings11 x00) 0 256 []
     = Panics (ExplicitPanic "n does not fit in nbBytes").
Proof.
  assert (H1 : (NbBytesAddress (settings11 x00) <= 7)%N)
    by (vm_compute; discriminate).
  assert (H2 : BackRefSettings.NbBytesAddress (BackRefSettings (settings11 x00))
               = NbBytesAddress (settings11 x00)) by reflexivity.
  assert (H3 : index (repeat x00 257) 256 = Returns (Symbol (settings11 x00)))
    by (vm_compute; reflexivity).
  assert (H4 : 256 = backRefAddressRange (settings11 x00))
    by (vm_compute; reflexivity).
  exact (conj H1 (conj H2 (conj H3 (conj H4
           (boundary_run_panics freeCost (repeat x00 257) (settings11 x00)
                                0 256 [] H1 H2 H3 H4))))).
Defined.
